(** * UE5Coro: the promise and scheduling core

    A shallow embedding of the latent promise and its pending-action bridge
    (the implementation file of FLatentPromise), of the promise constructor
    and the initial-suspend awaiter (AsyncCoroutine.h), of the aggregate
    awaiters (AggregateAwaiters.h) and of the ability promise
    (AbilityPromises.cpp).

    Conventions:
    - a [checkf] that fails is fatal: the operation returns [Fatal msg], with
      the message of the source;
    - [IsInGameThread()] is the first argument [gt] of every operation that
      asks for it: the thread the operation is called on;
    - pointers are options, [None] is [nullptr]. *)

From Stdlib Require Import String ZArith List Bool Lia.
From Stdlib Require Finite.
Import ListNotations.
Open Scope Z_scope.

(** ** Fatal checks *)

Inductive result (A : Type) : Type :=
| Ok (a : A)
| Fatal (msg : string).
Arguments Ok {A} a.
Arguments Fatal {A} msg.

Definition bind {A B : Type} (r : result A) (k : A -> result B) : result B :=
  match r with
  | Ok a => k a
  | Fatal msg => Fatal msg
  end.

Definition checkf (cond : bool) (msg : string) : result unit :=
  if cond then Ok tt else Fatal msg.

Notation "x <- c ;; k" := (bind c (fun x => k))
  (at level 61, c at next level, right associativity).
Notation "c ;;; k" := (bind c (fun _ => k))
  (at level 61, right associativity).

(** ** Host objects *)

Definition UWorld := nat.

Record UObject := {
  obj_id : nat;
  obj_valid : bool;               (* IsValid(Object) *)
  obj_world : option UWorld       (* Object->GetWorld() *)
}.

Definition UObjectPtr := option UObject.

Definition IsValid (p : UObjectPtr) : bool :=
  match p with
  | Some o => obj_valid o
  | None => false
  end.

Definition same_object (p q : UObjectPtr) : bool :=
  match p, q with
  | Some a, Some b => Nat.eqb (obj_id a) (obj_id b)
  | None, None => true
  | _, _ => false
  end.

(** FLatentActionInfo, fields in declaration order. *)
Record FLatentActionInfo := {
  Linkage : Z;
  UUID : Z;
  ExecutionFunction : string;
  CallbackTarget : UObjectPtr
}.

(** FLatentResponse: what a tick answers to the action manager. *)
Record FLatentResponse := {
  bRemoveAction : bool;
  LinksToExecute : list (string * Z * UObjectPtr)
}.

Definition NoResponse : FLatentResponse :=
  {| bRemoveAction := false; LinksToExecute := [] |}.

Definition DoneIf (cond : bool) (r : FLatentResponse) : FLatentResponse :=
  {| bRemoveAction := cond; LinksToExecute := LinksToExecute r |}.

Definition TriggerLink (f : string) (l : Z) (t : UObjectPtr)
    (r : FLatentResponse) : FLatentResponse :=
  {| bRemoveAction := bRemoveAction r;
     LinksToExecute := LinksToExecute r ++ [(f, l, t)] |}.

(** ** The latent flags *)

(** Modelled from the spec: the bit flags [Detached] and [InFinalSuspend] of
    the latent promise.  Their enum is declared in a header that is not
    among the sources, so the two masks are parameters: non-zero and with
    no bit in common. *)
Class ELatentFlags := {
  LF_Detached : Z;
  LF_InFinalSuspend : Z;
  LF_Detached_pos : 0 < LF_Detached;
  LF_InFinalSuspend_pos : 0 < LF_InFinalSuspend;
  LF_disjoint : Z.land LF_Detached LF_InFinalSuspend = 0
}.

#[export] Instance flags_1_2 : ELatentFlags.
Proof.
  refine {| LF_Detached := 1; LF_InFinalSuspend := 2 |};
    [lia | lia | reflexivity].
Defined.

(** [Flags & Mask] read as a C++ condition. *)
Definition has_flag (flags mask : Z) : bool :=
  negb (Z.land flags mask =? 0).

(** Modelled from the spec: ELatentExitReason (LatentExitReason.h is not
    among the sources); the enumerators are the ones the sources name. *)
Inductive ELatentExitReason := Normal | ActionAborted | ObjectDestroyed.

Definition ELatentExitReason_eqb (a b : ELatentExitReason) : bool :=
  match a, b with
  | Normal, Normal | ActionAborted, ActionAborted
  | ObjectDestroyed, ObjectDestroyed => true
  | _, _ => false
  end.

(** ** The latent promise and its pending-action bridge *)

Module Latent.

(** A latent awaiter, as the tick sees it: what [ShouldResume()] answers. *)
Record FLatentAwaiter := {
  awaiter_id : nat;
  ShouldResume : bool
}.

(** FPendingLatentCoroutine.  [Promise] is the back-pointer ([false] once
    it is null), [self] the address the action manager knows it by. *)
Record FPendingLatentCoroutine := {
  self : nat;
  Promise : bool;
  LatentInfo : FLatentActionInfo;
  CurrentAwaiter : option FLatentAwaiter
}.

(** FLatentPromise.  [PendingLatentCoroutine] holds the object the pointer
    refers to; [Extras_IsComplete] is [Extras->IsComplete()]. *)
Record FLatentPromise := {
  World : option UWorld;
  PendingLatentCoroutine : option FPendingLatentCoroutine;
  LatentFlags : Z;
  ExitReason : ELatentExitReason;
  bCanceled : bool;
  Extras_IsComplete : bool
}.

Definition set_Promise (v : bool) (b : FPendingLatentCoroutine) :=
  {| self := self b; Promise := v; LatentInfo := LatentInfo b;
     CurrentAwaiter := CurrentAwaiter b |}.

Definition set_CurrentAwaiter (v : option FLatentAwaiter)
    (b : FPendingLatentCoroutine) :=
  {| self := self b; Promise := Promise b; LatentInfo := LatentInfo b;
     CurrentAwaiter := v |}.

Definition set_World (v : option UWorld) (p : FLatentPromise) :=
  {| World := v; PendingLatentCoroutine := PendingLatentCoroutine p;
     LatentFlags := LatentFlags p; ExitReason := ExitReason p;
     bCanceled := bCanceled p; Extras_IsComplete := Extras_IsComplete p |}.

Definition set_Pending (v : option FPendingLatentCoroutine)
    (p : FLatentPromise) :=
  {| World := World p; PendingLatentCoroutine := v;
     LatentFlags := LatentFlags p; ExitReason := ExitReason p;
     bCanceled := bCanceled p; Extras_IsComplete := Extras_IsComplete p |}.

Definition set_LatentFlags (v : Z) (p : FLatentPromise) :=
  {| World := World p; PendingLatentCoroutine := PendingLatentCoroutine p;
     LatentFlags := v; ExitReason := ExitReason p;
     bCanceled := bCanceled p; Extras_IsComplete := Extras_IsComplete p |}.

Definition set_ExitReason (v : ELatentExitReason) (p : FLatentPromise) :=
  {| World := World p; PendingLatentCoroutine := PendingLatentCoroutine p;
     LatentFlags := LatentFlags p; ExitReason := v;
     bCanceled := bCanceled p; Extras_IsComplete := Extras_IsComplete p |}.

Definition set_bCanceled (v : bool) (p : FLatentPromise) :=
  {| World := World p; PendingLatentCoroutine := PendingLatentCoroutine p;
     LatentFlags := LatentFlags p; ExitReason := ExitReason p;
     bCanceled := v; Extras_IsComplete := Extras_IsComplete p |}.

Definition set_Complete (v : bool) (p : FLatentPromise) :=
  {| World := World p; PendingLatentCoroutine := PendingLatentCoroutine p;
     LatentFlags := LatentFlags p; ExitReason := ExitReason p;
     bCanceled := bCanceled p; Extras_IsComplete := v |}.

(** What is left of the coroutine body: the suspension points it will reach,
    in order; after the last one it returns and reaches final_suspend.
    [AwaitLatent a] is a co_await of a latent awaiter (it hands itself to
    SetCurrentAwaiter), [AwaitAsync] a co_await through TAwaiter (it calls
    DetachFromGameThread). *)
Inductive Suspension :=
| AwaitLatent (a : FLatentAwaiter)
| AwaitAsync.

Inductive Event :=
| EvBodyResumed                               (* handle.resume() *)
| EvLocalsDestroyed (seen : ELatentExitReason)
    (* Handle.destroy() unwinds the frame; its locals read GLatentExitReason *)
| EvCompleted                                 (* ~FPromise: completion signal *)
| EvEnsure (msg : string).                    (* a failed ensureMsgf *)

(** Tasks posted to the game thread. *)
Inductive Task := TaskThreadSafeDestroy.

(** One latent coroutine and what it shares with the process. *)
Record Sys := {
  promise : FLatentPromise;
  body : list Suspension;
  GLatentExitReason : ELatentExitReason;
  uncaught_exceptions : bool;       (* std::uncaught_exceptions() != 0 *)
  LAM : list (UObjectPtr * Z * nat);
    (* World->GetLatentActionManager(): (target, UUID, action) *)
  GameThreadTasks : list Task;
  trace : list Event
}.

Definition set_promise (v : FLatentPromise) (s : Sys) :=
  {| promise := v; body := body s;
     GLatentExitReason := GLatentExitReason s;
     uncaught_exceptions := uncaught_exceptions s; LAM := LAM s;
     GameThreadTasks := GameThreadTasks s; trace := trace s |}.

Definition set_body (v : list Suspension) (s : Sys) :=
  {| promise := promise s; body := v;
     GLatentExitReason := GLatentExitReason s;
     uncaught_exceptions := uncaught_exceptions s; LAM := LAM s;
     GameThreadTasks := GameThreadTasks s; trace := trace s |}.

Definition set_GLatentExitReason (v : ELatentExitReason) (s : Sys) :=
  {| promise := promise s; body := body s; GLatentExitReason := v;
     uncaught_exceptions := uncaught_exceptions s; LAM := LAM s;
     GameThreadTasks := GameThreadTasks s; trace := trace s |}.

Definition set_LAM (v : list (UObjectPtr * Z * nat)) (s : Sys) :=
  {| promise := promise s; body := body s;
     GLatentExitReason := GLatentExitReason s;
     uncaught_exceptions := uncaught_exceptions s; LAM := v;
     GameThreadTasks := GameThreadTasks s; trace := trace s |}.

Definition post (t : Task) (s : Sys) :=
  {| promise := promise s; body := body s;
     GLatentExitReason := GLatentExitReason s;
     uncaught_exceptions := uncaught_exceptions s; LAM := LAM s;
     GameThreadTasks := GameThreadTasks s ++ [t]; trace := trace s |}.

Definition log (e : Event) (s : Sys) :=
  {| promise := promise s; body := body s;
     GLatentExitReason := GLatentExitReason s;
     uncaught_exceptions := uncaught_exceptions s; LAM := LAM s;
     GameThreadTasks := GameThreadTasks s; trace := trace s ++ [e] |}.

Definition with_promise (f : FLatentPromise -> FLatentPromise) (s : Sys) :=
  set_promise (f (promise s)) s.

(** Dereferencing [PendingLatentCoroutine]. *)
Definition deref_Pending (p : FLatentPromise)
  : result FPendingLatentCoroutine :=
  match PendingLatentCoroutine p with
  | Some b => Ok b
  | None => Fatal "null PendingLatentCoroutine dereferenced"
  end.

(** FInitialSuspend::EAction *)
Module FInitialSuspend.
Inductive EAction := Resume | Destroy.
End FInitialSuspend.

Section Operations.
Context {LF : ELatentFlags}.

(** *** FPendingLatentCoroutine, the parts that do not resume *)

Definition Pending_Detach (b : FPendingLatentCoroutine)
  : result FPendingLatentCoroutine :=
  (* off the game thread the same body runs in a game-thread task while the
     caller waits for it, so both branches come to this *)
  checkf (Promise b) "Internal error: unexpected double Detach" ;;;
  Ok (set_Promise false b).

Definition Pending_SetCurrentAwaiter (gt : bool)
    (Awaiter : option FLatentAwaiter) (b : FPendingLatentCoroutine)
  : result (FPendingLatentCoroutine * list Event) :=
  checkf gt "Latent awaiters may only be used on the game thread" ;;;
  let ev := match Awaiter, CurrentAwaiter b with
            | Some _, Some _ => [EvEnsure "Unexpected double await"]
            | _, _ => []
            end in
  Ok (set_CurrentAwaiter Awaiter b, ev).

(** *** FLatentPromise *)

Definition AttachToGameThread (gt : bool) (p : FLatentPromise)
  : result FLatentPromise :=
  checkf gt "Internal error: attaching to the GT while not on the GT" ;;;
  Ok (set_LatentFlags (Z.land (LatentFlags p) (Z.lnot LF_Detached)) p).

Definition DetachFromGameThread (p : FLatentPromise) : FLatentPromise :=
  set_LatentFlags (Z.lor (LatentFlags p) LF_Detached) p.

Definition Respond (gt : bool) (p : FLatentPromise)
    (Response : FLatentResponse) (Info : FLatentActionInfo)
  : result FLatentResponse :=
  checkf gt "Internal error: latent action tick off the game thread" ;;;
  checkf (negb (Extras_IsComplete p))
         "Internal error: completed promise is still polled" ;;;
  let Flags := LatentFlags p in
  let bDetached := has_flag Flags LF_Detached in
  let bFinalSuspend := has_flag Flags LF_InFinalSuspend in
  let Response :=
    if (bCanceled p && negb bDetached) || bFinalSuspend
    then DoneIf true Response else Response in
  let Response :=
    if bFinalSuspend
    then TriggerLink (ExecutionFunction Info) (Linkage Info)
                     (CallbackTarget Info) Response
    else Response in
  Ok Response.

Definition SetExitReason (Reason : ELatentExitReason) (p : FLatentPromise)
  : result FLatentPromise :=
  checkf (ELatentExitReason_eqb (ExitReason p) Normal)
         "Internal error: setting conflicting exit reasons" ;;;
  Ok (set_ExitReason Reason p).

Definition SetCurrentAwaiter (gt : bool) (Awaiter : option FLatentAwaiter)
    (p : FLatentPromise) : result (FLatentPromise * list Event) :=
  checkf gt "Latent awaiters may only be used on the game thread" ;;;
  checkf (LatentFlags p =? 0) "Unexpected state in latent coroutine" ;;;
  Pending <- deref_Pending p ;;
  r <- Pending_SetCurrentAwaiter gt Awaiter Pending ;;
  Ok (set_Pending (Some (fst r)) p, snd r).

Definition final_suspend (p : FLatentPromise) : FLatentPromise :=
  set_LatentFlags LF_InFinalSuspend p.

(** The promise destructor.  [Detach] is compiled in when exceptions are. *)
Definition FLatentPromise_dtor (gt : bool) (s : Sys) : result Sys :=
  checkf gt "Unexpected latent coroutine destruction off the game thread" ;;;
  let s := set_GLatentExitReason Normal s in
  if uncaught_exceptions s then
    Pending <- deref_Pending (promise s) ;;
    Pending <- Pending_Detach Pending ;;
    Ok (with_promise (set_Pending (Some Pending)) s)
  else Ok s.

(** Modelled from the spec: ~FPromise (Promise.cpp is not among the
    sources).  Once destroyed, the promise's extras are complete and the
    completion signal has fired. *)
Definition FPromise_dtor (s : Sys) : Sys :=
  log EvCompleted (with_promise (set_Complete true) s).

(** [Handle.destroy()]: the frame is unwound (its locals see the exit reason
    in the global), then the promise is destroyed, derived class first. *)
Definition Handle_destroy (gt : bool) (s : Sys) : result Sys :=
  let s := log (EvLocalsDestroyed (GLatentExitReason s)) (set_body [] s) in
  s <- FLatentPromise_dtor gt s ;;
  Ok (FPromise_dtor s).

Definition ThreadSafeDestroy (gt : bool) (s : Sys) : result Sys :=
  if negb gt then Ok (post TaskThreadSafeDestroy s)
  else
    let s := set_GLatentExitReason (ExitReason (promise s)) s in
    s <- Handle_destroy gt s ;;
    checkf (ELatentExitReason_eqb (GLatentExitReason s) Normal)
           "Internal error: latent exit reason not restored" ;;;
    Ok s.

(** [handle.resume()]: the body runs on the calling thread up to its next
    suspension point.  Resuming a coroutine that waits at its final suspend
    point is undefined; it is fatal here. *)
Definition resume_body (gt : bool) (s : Sys) : result Sys :=
  let s := log EvBodyResumed s in
  match body s with
  | AwaitLatent a :: k =>
      r <- SetCurrentAwaiter gt (Some a) (promise s) ;;
      Ok (fold_left (fun s e => log e s) (snd r)
                    (set_promise (fst r) (set_body k s)))
  | AwaitAsync :: k =>
      Ok (with_promise DetachFromGameThread (set_body k s))
  | [] =>
      checkf (negb (has_flag (LatentFlags (promise s)) LF_InFinalSuspend))
             "coroutine resumed at its final suspend point" ;;;
      Ok (with_promise final_suspend s)
  end.

(** Modelled from the spec: FPromise::Resume (Promise.cpp is not among the
    sources).  Resume re-enters the coroutine; resuming after destruction is
    a programming error, checked defensively; a cancellation that reaches a
    resume is processed synchronously, the coroutine being destroyed instead
    of resumed.  Cancellation holds do not exist yet, so the bypass flag
    changes nothing here. *)
Definition FPromise_Resume (gt bBypassCancellationHolds : bool) (s : Sys)
  : result Sys :=
  checkf (negb (Extras_IsComplete (promise s)))
         "Attempting to resume completed coroutine" ;;;
  if bCanceled (promise s) then ThreadSafeDestroy gt s
  else resume_body gt s.

Definition Resume (gt bBypassCancellationHolds : bool) (s : Sys)
  : result Sys :=
  borrowed <-
    (if bBypassCancellationHolds then
       checkf (gt && bCanceled (promise s))
              "Internal error: wrong state for bypass request" ;;;
       Ok (has_flag (LatentFlags (promise s)) LF_Detached)
     else Ok false) ;;
  if borrowed : bool then Ok s
  else
    s <- (if has_flag (LatentFlags (promise s)) LF_Detached && gt then
            p <- AttachToGameThread gt (promise s) ;;
            Ok (set_promise p s)
          else Ok s) ;;
    FPromise_Resume gt bBypassCancellationHolds s.

(** Modelled from the spec: FPromise::Cancel (not among the sources).  A
    cancellation is settable at any time; it only marks the promise. *)
Definition Cancel (p : FLatentPromise) : FLatentPromise :=
  set_bCanceled true p.

(** *** FPendingLatentCoroutine, the parts that reach the promise *)

Definition Pending_dtor (gt : bool) (s : Sys) : result Sys :=
  checkf gt "Unexpected latent action off the game thread" ;;;
  Pending <- deref_Pending (promise s) ;;
  if Promise Pending then Resume gt true (with_promise Cancel s)
  else Ok s.

Definition UpdateOperation (gt : bool) (s : Sys) (Response : FLatentResponse)
  : result (Sys * FLatentResponse) :=
  checkf gt "Internal error: expected game thread update" ;;;
  Pending <- deref_Pending (promise s) ;;
  if negb (Promise Pending) then Ok (s, DoneIf true Response)
  else
    s <- (match CurrentAwaiter Pending with
          | Some a =>
              if ShouldResume a then
                Resume gt false
                  (with_promise
                     (set_Pending (Some (set_CurrentAwaiter None Pending))) s)
              else Ok s
          | None => Ok s
          end) ;;
    Response <- Respond gt (promise s) Response (LatentInfo Pending) ;;
    Ok (s, Response).

Definition NotifyActionAborted (gt : bool) (s : Sys) : result Sys :=
  checkf gt "Internal error: expected callback from the game thread" ;;;
  Pending <- deref_Pending (promise s) ;;
  if Promise Pending then
    p <- SetExitReason ActionAborted (promise s) ;; Ok (set_promise p s)
  else Ok s.

Definition NotifyObjectDestroyed (gt : bool) (s : Sys) : result Sys :=
  checkf gt "Internal error: expected callback from the game thread" ;;;
  Pending <- deref_Pending (promise s) ;;
  if Promise Pending then
    p <- SetExitReason ObjectDestroyed (promise s) ;; Ok (set_promise p s)
  else Ok s.

(** The exit reasons handed to [SetExitReason] over a promise's lifetime,
    in order. *)
Fixpoint SetExitReasons (Reasons : list ELatentExitReason)
    (p : FLatentPromise) : result FLatentPromise :=
  match Reasons with
  | [] => Ok p
  | Reason :: Reasons =>
      p <- SetExitReason Reason p ;; SetExitReasons Reasons p
  end.

Definition abnormal (Reason : ELatentExitReason) : bool :=
  negb (ELatentExitReason_eqb Reason Normal).

(** *** Starting *)

(** The action manager's two operations, as the spec's interface has them:
    find an action by (target, id), add a new one. *)
Definition FindExistingAction (lam : list (UObjectPtr * Z * nat))
    (Target : UObjectPtr) (Id : Z) : option nat :=
  match find (fun e => same_object (fst (fst e)) Target
                       && (snd (fst e) =? Id)) lam with
  | Some e => Some (snd e)
  | None => None
  end.

Definition AddNewAction (lam : list (UObjectPtr * Z * nat))
    (Target : UObjectPtr) (Id : Z) (Action : nat) :=
  lam ++ [(Target, Id, Action)].

Definition initial_suspend (gt : bool) (s : Sys)
  : result (Sys * FInitialSuspend.EAction) :=
  checkf gt "Latent coroutines may only be started on the game thread" ;;;
  match World (promise s) with
  | None => Fatal "null World dereferenced"
  | Some _ =>
      Pending <- deref_Pending (promise s) ;;
      let Info := LatentInfo Pending in
      match FindExistingAction (LAM s) (CallbackTarget Info) (UUID Info) with
      | Some _ => Ok (s, FInitialSuspend.Destroy)
      | None =>
          if negb (IsValid (CallbackTarget Info)) then
            Ok (log (EvEnsure
                       "Not starting latent coroutine with invalid target") s,
                FInitialSuspend.Destroy)
          else
            Ok (set_LAM (AddNewAction (LAM s) (CallbackTarget Info)
                                      (UUID Info) (self Pending)) s,
                FInitialSuspend.Resume)
      end
  end.

(** FInitialSuspend::await_suspend *)
Definition await_suspend (gt : bool) (Action : FInitialSuspend.EAction)
    (s : Sys) : result Sys :=
  match Action with
  | FInitialSuspend.Resume => Resume gt false s
  | FInitialSuspend.Destroy => Handle_destroy gt s
  end.

(** The start of a latent coroutine, once its promise is constructed. *)
Definition start (gt : bool) (s : Sys) : result Sys :=
  r <- initial_suspend gt s ;;
  await_suspend gt (snd r) (fst r).

(** How often the body was resumed, by the trace. *)
Definition resumptions (tr : list Event) : nat :=
  length (filter (fun e => match e with EvBodyResumed => true
                                      | _ => false end) tr).

(** What can reach a coroutine from the game thread while it is away on
    another thread: a cancellation, a tick of the action manager, the
    action manager destroying the bridge (which cancels and forces a
    resume).  A tick answers with a response. *)
Inductive Request := ReqCancel | ReqTick | ReqDestroyBridge.

Definition request (r : Request) (s : Sys)
  : result (Sys * list FLatentResponse) :=
  match r with
  | ReqCancel => Ok (with_promise Cancel s, [])
  | ReqTick =>
      r <- UpdateOperation true s NoResponse ;; Ok (fst r, [snd r])
  | ReqDestroyBridge => s <- Pending_dtor true s ;; Ok (s, [])
  end.

Fixpoint requests (rs : list Request) (s : Sys)
  : result (Sys * list FLatentResponse) :=
  match rs with
  | [] => Ok (s, [])
  | r :: rs =>
      a <- request r s ;;
      b <- requests rs (fst a) ;;
      Ok (fst b, snd a ++ snd b)
  end.



(** *** The game thread's task queue *)

Definition set_GameThreadTasks (v : list Task) (s : Sys) :=
  {| promise := promise s; body := body s;
     GLatentExitReason := GLatentExitReason s;
     uncaught_exceptions := uncaught_exceptions s; LAM := LAM s;
     GameThreadTasks := v; trace := trace s |}.

(** The game thread takes the oldest task and runs it: the lambda posted
    by ThreadSafeDestroy calls ThreadSafeDestroy again. *)
Definition run_GameThreadTask (s : Sys) : result Sys :=
  match GameThreadTasks s with
  | [] => Ok s
  | TaskThreadSafeDestroy :: rest =>
      ThreadSafeDestroy true (set_GameThreadTasks rest s)
  end.

(** A coroutine that waits on a latent awaiter: attached, no flag set, not
    canceled, alive, its bridge alive and holding the awaiter. *)
Definition polling (s : Sys) (b : FPendingLatentCoroutine)
    (a : FLatentAwaiter) : Prop :=
  LatentFlags (promise s) = 0 /\
  bCanceled (promise s) = false /\
  Extras_IsComplete (promise s) = false /\
  PendingLatentCoroutine (promise s) = Some b /\
  Promise b = true /\
  CurrentAwaiter b = Some a.

(** The response of the tick that finds the coroutine finished. *)
Definition finished (Info : FLatentActionInfo) : FLatentResponse :=
  TriggerLink (ExecutionFunction Info) (Linkage Info) (CallbackTarget Info)
              (DoneIf true NoResponse).

(** What lasts: a cancellation, a completion, an exit reason that is not
    Normal. *)
Definition lasting (s s' : Sys) : Prop :=
  (bCanceled (promise s) = true -> bCanceled (promise s') = true) /\
  (Extras_IsComplete (promise s) = true ->
   Extras_IsComplete (promise s') = true) /\
  (ExitReason (promise s) <> Normal ->
   ExitReason (promise s') = ExitReason (promise s)).

(** The notification of the bridge that records [Reason], on the game
    thread; none at all for Normal. *)
Definition notify (Reason : ELatentExitReason) (s : Sys) : result Sys :=
  match Reason with
  | Normal => Ok s
  | ActionAborted => NotifyActionAborted true s
  | ObjectDestroyed => NotifyObjectDestroyed true s
  end.

(** *** The operations, as requests *)

(** Every operation of the promise, and every operation of the bridge that
    reaches the promise. *)
Inductive Operation :=
| OpResume (bBypassCancellationHolds : bool)
| OpThreadSafeDestroy
| OpAttachToGameThread
| OpDetachFromGameThread
| OpRespond (Response : FLatentResponse) (Info : FLatentActionInfo)
| OpSetExitReason (Reason : ELatentExitReason)
| OpSetCurrentAwaiter (Awaiter : option FLatentAwaiter)
| OpCancel
| OpInitialSuspend
| OpFinalSuspend
| OpUpdateOperation (Response : FLatentResponse)
| OpNotifyActionAborted
| OpNotifyObjectDestroyed
| OpPendingDtor.

Definition exec (gt : bool) (op : Operation) (s : Sys) : result Sys :=
  match op with
  | OpResume b => Resume gt b s
  | OpThreadSafeDestroy => ThreadSafeDestroy gt s
  | OpAttachToGameThread =>
      p <- AttachToGameThread gt (promise s) ;; Ok (set_promise p s)
  | OpDetachFromGameThread => Ok (with_promise DetachFromGameThread s)
  | OpRespond Response Info =>
      Respond gt (promise s) Response Info ;;; Ok s
  | OpSetExitReason Reason =>
      p <- SetExitReason Reason (promise s) ;; Ok (set_promise p s)
  | OpSetCurrentAwaiter Awaiter =>
      r <- SetCurrentAwaiter gt Awaiter (promise s) ;;
      Ok (fold_left (fun s e => log e s) (snd r) (set_promise (fst r) s))
  | OpCancel => Ok (with_promise Cancel s)
  | OpInitialSuspend => r <- initial_suspend gt s ;; Ok (fst r)
  | OpFinalSuspend => Ok (with_promise final_suspend s)
  | OpUpdateOperation Response =>
      r <- UpdateOperation gt s Response ;; Ok (fst r)
  | OpNotifyActionAborted => NotifyActionAborted gt s
  | OpNotifyObjectDestroyed => NotifyObjectDestroyed gt s
  | OpPendingDtor => Pending_dtor gt s
  end.

(** Requests in order, each with the thread it is made on. *)
Fixpoint exec_all (ops : list (bool * Operation)) (s : Sys) : result Sys :=
  match ops with
  | [] => Ok s
  | (gt, op) :: ops => s <- exec gt op s ;; exec_all ops s
  end.

Definition is_Detach (op : Operation) : bool :=
  match op with
  | OpDetachFromGameThread => true
  | _ => false
  end.

End Operations.

(** *** Construction *)

(** A constructor argument, by the [Init] overload that takes it: a
    [const UObject*], an [FLatentActionInfo], an object whose type converts
    to [const UObject&], anything else. *)
Inductive Arg :=
| ArgWorldContext (WorldContext : UObjectPtr)
| ArgLatentInfo (LatentInfo : FLatentActionInfo)
| ArgObject (First : UObject)
| ArgOther.




Definition is_null {A : Type} (p : option A) : bool :=
  match p with
  | Some _ => false
  | None => true
  end.

Definition CreateLatentAction (addr : nat) (LatentInfo : FLatentActionInfo)
    (p : FLatentPromise) : result FLatentPromise :=
  checkf (is_null (PendingLatentCoroutine p))
         "Internal error: multiple latent infos were not prevented" ;;;
  Ok (set_Pending (Some {| self := addr; Promise := true;
                           LatentInfo := LatentInfo;
                           CurrentAwaiter := None |}) p).

(** The body of [Init(const UObject*, T&...)] before it recurses. *)
Definition Init_WorldContext (WorldContext : UObjectPtr)
    (p : FLatentPromise) : FLatentPromise :=
  match World p, WorldContext with
  | None, Some o => set_World (obj_world o) p    (* null is fine *)
  | _, _ => p
  end.

Fixpoint Init (GWorld : option UWorld) (addr : nat) (Args : list Arg)
    (p : FLatentPromise) : result FLatentPromise :=
  match Args with
  | [] =>
      checkf (negb (is_null (PendingLatentCoroutine p)))
             "Internal error: wrong coroutine promise type used" ;;;
      if is_null (World p) then
        let p := set_World GWorld p in
        checkf (negb (is_null (World p)))
               "Could not determine world for latent coroutine" ;;;
        Ok p
      else Ok p
  | ArgWorldContext WorldContext :: Args =>
      Init GWorld addr Args (Init_WorldContext WorldContext p)
  | ArgLatentInfo LatentInfo :: Args =>
      checkf (is_null (PendingLatentCoroutine p))
             "check(!PendingLatentCoroutine)" ;;;
      p <- CreateLatentAction addr LatentInfo p ;;
      Init GWorld addr Args p
  | ArgObject First :: Args =>
      (* static_cast<const UObject*>(std::addressof(First)) *)
      Init GWorld addr Args (Init_WorldContext (Some First) p)
  | ArgOther :: Args => Init GWorld addr Args p
  end.

(** The members' initial values. *)
Definition FLatentPromise_new : FLatentPromise :=
  {| World := None; PendingLatentCoroutine := None; LatentFlags := 0;
     ExitReason := Normal; bCanceled := false; Extras_IsComplete := false |}.

Definition FLatentPromise_ctor (gt : bool) (GWorld : option UWorld)
    (addr : nat) (Args : list Arg) : result FLatentPromise :=
  checkf gt "Latent coroutines may only be started on the game thread" ;;;
  Init GWorld addr Args FLatentPromise_new.





End Latent.

(** ** Aggregate awaiters *)

Module Aggregate.

(** FAggregateAwaiter::FData, the lock apart: every access below happens
    with the lock held, so each step is atomic.  [Handle] is [None] for
    the monostate.  [Count] is an int; it moves between its initial value
    and that value minus the number of children, far from the ends. *)
Record FData := {
  Count : Z;
  Index : Z;
  Handle : option nat
}.

Definition FData_new (Count : Z) : FData :=
  {| Count := Count; Index := -1; Handle := None |}.

(** The shared data and what has happened to the awaiting parent:
    [Resumed] lists the handles resumed through [Handle.promise().Resume()],
    [Ready] counts the co_awaits that found the awaiter ready, after which
    the parent goes on without suspending. *)
Record State := {
  Data : FData;
  Resumed : list nat;
  Ready : nat
}.

(** [Consume] from the end of [co_await Awaiter] on. *)
Definition Consume_finish (Idx : Z) (st : State) : State :=
  let d := Data st in
  let c := Count d - 1 in                     (* --Data->Count *)
  if negb (c =? 0) then
    {| Data := {| Count := c; Index := Index d; Handle := Handle d |};
       Resumed := Resumed st; Ready := Ready st |}
  else
    let d := {| Count := c; Index := Idx; Handle := Handle d |} in
    match Handle d with
    | Some h => {| Data := d; Resumed := Resumed st ++ [h];
                   Ready := Ready st |}
    | None => {| Data := d; Resumed := Resumed st; Ready := Ready st |}
    end.

(** [Consume(Data, Index, Awaiter)]: the sub-coroutine starts at once and
    goes on to its end when the child is ready on the spot; otherwise it
    stays suspended on the child.  A child is given by that readiness. *)
Definition Consume (Idx : Z) (ready_now : bool) (st : State) : State :=
  if ready_now then Consume_finish Idx st else st.

(** The fold expression of the constructor, [Idx] counting up. *)
Fixpoint Consume_all (Idx : Z) (Awaiters : list bool) (st : State) : State :=
  match Awaiters with
  | [] => st
  | a :: Awaiters => Consume_all (Idx + 1) Awaiters (Consume Idx a st)
  end.

Definition FAggregateAwaiter (Count : Z) (Awaiters : list bool) : State :=
  Consume_all 0 Awaiters
    {| Data := FData_new Count; Resumed := []; Ready := 0%nat |}.

(** The count each combinator passes on. *)
Definition WhenAny_Count (Awaiters : list bool) : Z :=
  if negb (Nat.eqb (length Awaiters) 0) then 1 else 0.

Definition WhenAll_Count (Awaiters : list bool) : Z :=
  Z.of_nat (length Awaiters).

Definition WhenAny (Awaiters : list bool) : State :=
  FAggregateAwaiter (WhenAny_Count Awaiters) Awaiters.

Definition WhenAll (Awaiters : list bool) : State :=
  FAggregateAwaiter (WhenAll_Count Awaiters) Awaiters.

(** Modelled from the spec: FAggregateAwaiter::await_ready, await_suspend
    and GetResumerIndex (AggregateAwaiters.cpp is not among the sources).
    Readiness is checked before suspension is attempted and covers children
    that finished before the parent suspends, so the awaiter is ready once
    the count has reached zero or passed it; suspension registers the
    parent's handle; the resumer index is the recorded index. *)
Definition await_ready (d : FData) : bool := Count d <=? 0.

Definition await_suspend (h : nat) (d : FData) : FData :=
  {| Count := Count d; Index := Index d; Handle := Some h |}.

Definition GetResumerIndex (d : FData) : Z := Index d.

(** FAnyAwaiter::await_resume *)
Definition await_resume (st : State) : Z := GetResumerIndex (Data st).

(** [co_await] of the aggregate by the parent whose handle is [h]. *)
Definition co_await (h : nat) (st : State) : State :=
  if await_ready (Data st) then
    {| Data := Data st; Resumed := Resumed st; Ready := S (Ready st) |}
  else
    {| Data := await_suspend h (Data st); Resumed := Resumed st;
       Ready := Ready st |}.

(** What happens once the awaiter is built: a suspended child completes,
    the parent awaits. *)
Inductive Ev :=
| ChildCompletes (i : nat)
| ParentAwaits (h : nat).

Definition step (st : State) (e : Ev) : State :=
  match e with
  | ChildCompletes i => Consume_finish (Z.of_nat i) st
  | ParentAwaits h => co_await h st
  end.

Definition run (st : State) (evs : list Ev) : State := fold_left step evs st.

(** How often the parent went on past its co_await. *)
Definition continuations (st : State) : nat :=
  (length (Resumed st) + Ready st)%nat.

(** Children ready on the spot, by position, from position [i] on. *)
Fixpoint ready_children (i : nat) (Awaiters : list bool) : list nat :=
  match Awaiters with
  | [] => []
  | true :: Awaiters => i :: ready_children (S i) Awaiters
  | false :: Awaiters => ready_children (S i) Awaiters
  end.

Definition completed (evs : list Ev) : list nat :=
  flat_map (fun e => match e with ChildCompletes i => [i]
                                | ParentAwaits _ => [] end) evs.

Definition awaits (evs : list Ev) : list nat :=
  flat_map (fun e => match e with ParentAwaits h => [h]
                                | ChildCompletes _ => [] end) evs.

(** The children in the order they completed. *)
Definition completion_order (Awaiters : list bool) (evs : list Ev)
  : list nat :=
  ready_children 0 Awaiters ++ completed evs.

(** A schedule of [Awaiters]: each child completes at most once, the
    children that were ready do not complete again, the parent awaits at
    most once. *)
Definition schedule (Awaiters : list bool) (evs : list Ev) : Prop :=
  NoDup (completion_order Awaiters evs) /\
  (forall i, In i (completion_order Awaiters evs) ->
             (i < length Awaiters)%nat) /\
  (length (awaits evs) <= 1)%nat.

(** The state the constructor starts from. *)
Definition init (Count : Z) : State :=
  {| Data := FData_new Count; Resumed := []; Ready := 0%nat |}.

(** The child whose completion takes the count from [Count] to zero: the
    [Count]-th to complete. *)
Definition winner (Count : Z) (order : list nat) : option nat :=
  if Count <=? 0 then None else nth_error order (Z.to_nat Count - 1).

(** What a run from [init c0] has come to. *)
Definition Inv (c0 : Z) (evs : list Ev) (st : State) : Prop :=
  let n := Z.of_nat (length (completed evs)) in
  Count (Data st) = c0 - n /\
  Index (Data st) = match winner c0 (completed evs) with
                    | Some i => Z.of_nat i
                    | None => -1
                    end /\
  match awaits evs with
  | [] => Handle (Data st) = None /\ Resumed st = [] /\ Ready st = 0%nat
  | h :: _ =>
      (Ready st = 0%nat /\
       if c0 <=? n then Resumed st = [h]
       else Resumed st = [] /\ Handle (Data st) = Some h) \/
      (Ready st = 1%nat /\ Resumed st = [] /\ Handle (Data st) = None /\
       c0 <= n)
  end.

End Aggregate.

(** ** The ability promise *)

Module Ability.

Inductive Event :=
| EvCoroutineStarting (Target : nat) (flag_seen : bool).
    (* Target.CoroutineStarting(this), with the flag as it is then *)

(** The statics: TAbilityPromise<T>::bCalledFromActivate, and
    MakeLatentInfo's DummyId. *)
Record Statics := {
  bCalledFromActivate : bool;
  DummyId : Z;
  trace : list Event
}.

Definition MakeLatentInfo (Task : UObject) (g : Statics)
  : FLatentActionInfo * Statics :=
  ({| Linkage := 0; UUID := DummyId g; ExecutionFunction := "None";
      CallbackTarget := Some Task |},
   {| bCalledFromActivate := bCalledFromActivate g;
      DummyId := DummyId g + 1; trace := trace g |}).


Definition FAbilityPromise (gt : bool) (GWorld : option UWorld) (addr : nat)
    (Target : UObject) (g : Statics)
  : result (Latent.FLatentPromise * Statics) :=
  let (Info, g) := MakeLatentInfo Target g in
  p <- Latent.FLatentPromise_ctor gt GWorld addr
         [Latent.ArgObject Target; Latent.ArgLatentInfo Info] ;;
  checkf gt "Internal error: Expected to start on the game thread" ;;;
  Ok (p, g).

Definition TAbilityPromise (gt : bool) (GWorld : option UWorld) (addr : nat)
    (Target : UObject) (g : Statics)
  : result (Latent.FLatentPromise * Statics) :=
  r <- FAbilityPromise gt GWorld addr Target g ;;
  let (p, g) := r : Latent.FLatentPromise * Statics in
  checkf (bCalledFromActivate g)
         "Do not call Execute coroutines directly!" ;;;
  let g := {| bCalledFromActivate := false; DummyId := DummyId g;
              trace := trace g |} in
  let g := {| bCalledFromActivate := bCalledFromActivate g;
              DummyId := DummyId g;
              trace := trace g
                       ++ [EvCoroutineStarting (obj_id Target)
                                               (bCalledFromActivate g)] |} in
  Ok (p, g).

(** Setting the flag, as the activation of an ability does. *)
Definition authorize (g : Statics) : Statics :=
  {| bCalledFromActivate := true; DummyId := DummyId g; trace := trace g |}.

End Ability.

(** ** Example states *)

Module Examples.
Import Latent.

Definition actor : UObject :=
  {| obj_id := 1; obj_valid := true; obj_world := Some 7%nat |}.

Definition info : FLatentActionInfo :=
  {| Linkage := 3; UUID := 42; ExecutionFunction := "Continue";
     CallbackTarget := Some actor |}.

Definition bridge : FPendingLatentCoroutine :=
  {| self := 100; Promise := true; LatentInfo := info;
     CurrentAwaiter := None |}.

(** The promise the constructor builds from [(actor, info)]. *)
Definition fresh : FLatentPromise :=
  {| World := Some 7%nat; PendingLatentCoroutine := Some bridge;
     LatentFlags := 0; ExitReason := Normal; bCanceled := false;
     Extras_IsComplete := false |}.


Definition sys_of (p : FLatentPromise) (k : list Suspension) : Sys :=
  {| promise := p; body := k; GLatentExitReason := Normal;
     uncaught_exceptions := false; LAM := []; GameThreadTasks := [];
     trace := [] |}.


(** A state after its frame is gone, with what was logged. *)
Definition sys_of' (tr : list Event) (p : FLatentPromise) : Sys :=
  {| promise := p; body := []; GLatentExitReason := Normal;
     uncaught_exceptions := false; LAM := []; GameThreadTasks := [];
     trace := tr |}.

(** The statics before anything ran. *)
Definition statics : Ability.Statics :=
  {| Ability.bCalledFromActivate := false; Ability.DummyId := 0;
     Ability.trace := [] |}.

(** A coroutine whose frame is being unwound by an exception. *)
Definition unwinding : Sys :=
  {| promise := fresh; body := [AwaitAsync]; GLatentExitReason := Normal;
     uncaught_exceptions := true; LAM := []; GameThreadTasks := [];
     trace := [] |}.

(** A detached coroutine that was canceled after its object was
    destroyed. *)
Definition marked : Sys :=
  sys_of (set_ExitReason ObjectDestroyed
            (Cancel (DetachFromGameThread fresh))) [AwaitAsync].

(** A latent awaiter that is ready. *)
Definition ready (n : nat) : FLatentAwaiter :=
  {| awaiter_id := n; ShouldResume := true |}.

(** Three children, the second ready on the spot; the parent awaits, then
    the third child completes, then the first. *)
Definition children : list bool := [false; true; false].

Definition late : list Aggregate.Ev :=
  [Aggregate.ParentAwaits 9; Aggregate.ChildCompletes 2;
   Aggregate.ChildCompletes 0].

(** Three children, none ready; the parent awaits first. *)
Definition sleepers : list bool := [false; false; false].

End Examples.

(** * Properties *)

(** ** The result monad *)

Lemma bind_Ok {A B : Type} (r : result A) (k : A -> result B) (b : B) :
  bind r k = Ok b -> exists a, r = Ok a /\ k a = Ok b.
Proof.
  destruct r as [a|msg]; simpl; intros H; [eauto | discriminate].
Qed.

Lemma checkf_Ok (cond : bool) (msg : string) (u : unit) :
  checkf cond msg = Ok u -> cond = true.
Proof.
  destruct cond; simpl; [reflexivity | discriminate].
Qed.

Lemma ELatentExitReason_eqb_eq (a b : ELatentExitReason) :
  ELatentExitReason_eqb a b = true <-> a = b.
Proof.
  destruct a, b; simpl; split; intros H; congruence.
Qed.

(** Inverts the hypotheses [... = Ok _] through binds, checks and matches. *)
Ltac inv_step :=
  match goal with
  | H : Ok _ = Ok _ |- _ => inversion H; subst; clear H
  | H : Fatal _ = Ok _ |- _ => discriminate H
  | H : checkf _ _ = Ok _ |- _ => apply checkf_Ok in H
  | H : bind _ _ = Ok _ |- _ =>
      apply bind_Ok in H; destruct H as (? & ? & ?)
  | H : match ?x with _ => _ end = Ok _ |- _ => destruct x eqn:?
  end.

Ltac inv_ok := repeat (inv_step; simpl in * ).

(** ** The flag masks *)

Section FlagFacts.
Context {LF : ELatentFlags}.

Lemma LF_Detached_nonzero : LF_Detached <> 0.
Proof. pose proof LF_Detached_pos. lia. Qed.

Lemma LF_InFinalSuspend_nonzero : LF_InFinalSuspend <> 0.
Proof. pose proof LF_InFinalSuspend_pos. lia. Qed.

Lemma has_flag_true (f m : Z) : has_flag f m = true <-> Z.land f m <> 0.
Proof.
  unfold has_flag. rewrite negb_true_iff, Z.eqb_neq. reflexivity.
Qed.

Lemma has_flag_false (f m : Z) : has_flag f m = false <-> Z.land f m = 0.
Proof.
  unfold has_flag. rewrite negb_false_iff, Z.eqb_eq. reflexivity.
Qed.

Lemma has_flag_set (f : Z) :
  has_flag (Z.lor f LF_Detached) LF_Detached = true.
Proof.
  apply has_flag_true.
  rewrite Z.land_lor_distr_l, Z.land_diag.
  intros H. apply Z.lor_eq_0_iff in H. destruct H as [_ H].
  exact (LF_Detached_nonzero H).
Qed.


Lemma has_flag_final_Detached : has_flag LF_InFinalSuspend LF_Detached = false.
Proof.
  apply has_flag_false. rewrite Z.land_comm. apply LF_disjoint.
Qed.

Lemma has_flag_final_InFinalSuspend :
  has_flag LF_InFinalSuspend LF_InFinalSuspend = true.
Proof.
  apply has_flag_true. rewrite Z.land_diag. apply LF_InFinalSuspend_nonzero.
Qed.

Lemma land_set_other (f : Z) :
  Z.land (Z.lor f LF_Detached) LF_InFinalSuspend = Z.land f LF_InFinalSuspend.
Proof.
  rewrite Z.land_lor_distr_l, LF_disjoint. apply Z.lor_0_r.
Qed.

Lemma land_cleared_other (f : Z) :
  Z.land (Z.land f (Z.lnot LF_Detached)) LF_InFinalSuspend
  = Z.land f LF_InFinalSuspend.
Proof.
  rewrite <- Z.land_assoc. f_equal.
  apply Z.bits_inj'. intros n Hn.
  rewrite Z.land_spec, Z.lnot_spec by exact Hn.
  pose proof (f_equal (fun z => Z.testbit z n) LF_disjoint) as Hd.
  simpl in Hd. rewrite Z.land_spec, Z.bits_0 in Hd.
  destruct (Z.testbit LF_Detached n), (Z.testbit LF_InFinalSuspend n);
    simpl in *; congruence.
Qed.

Lemma has_flag_set_other (f : Z) :
  has_flag (Z.lor f LF_Detached) LF_InFinalSuspend
  = has_flag f LF_InFinalSuspend.
Proof. unfold has_flag. rewrite land_set_other. reflexivity. Qed.

Lemma has_flag_cleared_other (f : Z) :
  has_flag (Z.land f (Z.lnot LF_Detached)) LF_InFinalSuspend
  = has_flag f LF_InFinalSuspend.
Proof. unfold has_flag. rewrite land_cleared_other. reflexivity. Qed.

Lemma cleared_id (f : Z) :
  has_flag f LF_Detached = false ->
  Z.land f (Z.lnot LF_Detached) = f.
Proof.
  intros H. apply has_flag_false in H.
  apply Z.bits_inj'. intros n Hn.
  rewrite Z.land_spec, Z.lnot_spec by exact Hn.
  pose proof (f_equal (fun z => Z.testbit z n) H) as Hd.
  simpl in Hd. rewrite Z.land_spec, Z.bits_0 in Hd.
  destruct (Z.testbit f n), (Z.testbit LF_Detached n);
    simpl in *; congruence.
Qed.

End FlagFacts.

(** ** The latent promise *)

Module LatentProofs.
Import Latent.

Section ExitReason.

Lemma SetExitReason_Normal (r : ELatentExitReason) (p : FLatentPromise) :
  ExitReason p = Normal -> SetExitReason r p = Ok (set_ExitReason r p).
Proof.
  intros H. unfold SetExitReason. rewrite H. reflexivity.
Qed.

Lemma SetExitReason_conflict (r : ELatentExitReason) (p : FLatentPromise) :
  ExitReason p <> Normal ->
  SetExitReason r p
  = Fatal "Internal error: setting conflicting exit reasons".
Proof.
  intros H. unfold SetExitReason.
  destruct (ExitReason p); [contradiction | reflexivity | reflexivity].
Qed.

Lemma SetExitReasons_conflict (rs : list ELatentExitReason)
    (p p' : FLatentPromise) :
  ExitReason p <> Normal -> SetExitReasons rs p = Ok p' -> rs = [].
Proof.
  intros Hp H. destruct rs as [|r rs]; [reflexivity|].
  simpl in H. rewrite (SetExitReason_conflict r p Hp) in H. discriminate.
Qed.

Lemma SetExitReasons_once (rs : list ELatentExitReason)
    (p p' : FLatentPromise) :
  ExitReason p = Normal -> SetExitReasons rs p = Ok p' ->
  (length (filter abnormal rs) <= 1)%nat /\
  ExitReason p' = hd Normal (filter abnormal rs).
Proof.
  revert p. induction rs as [|r rs IH]; intros p Hp H; simpl in H.
  - injection H as <-. simpl. split; [lia | exact Hp].
  - rewrite (SetExitReason_Normal r p Hp) in H. simpl in H.
    destruct r; simpl.
    + apply (IH (set_ExitReason Normal p)); [reflexivity | exact H].
    + assert (rs = []) as ->.
      { eapply SetExitReasons_conflict; [|exact H]. simpl. discriminate. }
      simpl in H. injection H as <-. simpl. split; [lia | reflexivity].
    + assert (rs = []) as ->.
      { eapply SetExitReasons_conflict; [|exact H]. simpl. discriminate. }
      simpl in H. injection H as <-. simpl. split; [lia | reflexivity].
Qed.

(** C9.  The recorded exit reason is write-once.  SetExitReason goes through
    exactly when the current reason is Normal and fails its check
    otherwise; so of all the reasons handed to a promise over its lifetime
    at most one is not Normal, and it is the one the promise ends with; and
    once a notification of the bridge has recorded its reason, either
    notification fails the check. *)
Theorem C9_exit_reason_write_once
    (rs : list ELatentExitReason) (p p' : FLatentPromise)
    (Hnew : ExitReason p = Normal)
    (Hrun : SetExitReasons rs p = Ok p') :
  (forall r q, ExitReason q = Normal ->
               SetExitReason r q = Ok (set_ExitReason r q)) /\
  (forall r q, ExitReason q <> Normal ->
               SetExitReason r q
               = Fatal "Internal error: setting conflicting exit reasons") /\
  (length (filter abnormal rs) <= 1)%nat /\
  ExitReason p' = hd Normal (filter abnormal rs) /\
  (forall s b,
      promise s = p ->
      PendingLatentCoroutine p = Some b -> Promise b = true ->
      (exists s1, NotifyActionAborted true s = Ok s1 /\
                  ExitReason (promise s1) = ActionAborted /\
                  NotifyActionAborted true s1
                  = Fatal "Internal error: setting conflicting exit reasons" /\
                  NotifyObjectDestroyed true s1
                  = Fatal "Internal error: setting conflicting exit reasons")
      /\
      (exists s1, NotifyObjectDestroyed true s = Ok s1 /\
                  ExitReason (promise s1) = ObjectDestroyed /\
                  NotifyActionAborted true s1
                  = Fatal "Internal error: setting conflicting exit reasons" /\
                  NotifyObjectDestroyed true s1
                  = Fatal "Internal error: setting conflicting exit reasons")).
Proof.
  split; [intros r q; apply SetExitReason_Normal|].
  split; [intros r q; apply SetExitReason_conflict|].
  destruct (SetExitReasons_once rs p p' Hnew Hrun) as [Hlen Hlast].
  split; [exact Hlen|]. split; [exact Hlast|].
  intros s b Hs Hb HP. subst p.
  split.
  - exists (set_promise (set_ExitReason ActionAborted (promise s)) s).
    unfold NotifyActionAborted, NotifyObjectDestroyed, deref_Pending.
    simpl. rewrite Hb. simpl. rewrite HP.
    rewrite (SetExitReason_Normal _ _ Hnew). simpl.
    repeat split; reflexivity.
  - exists (set_promise (set_ExitReason ObjectDestroyed (promise s)) s).
    unfold NotifyActionAborted, NotifyObjectDestroyed, deref_Pending.
    simpl. rewrite Hb. simpl. rewrite HP.
    rewrite (SetExitReason_Normal _ _ Hnew). simpl.
    repeat split; reflexivity.
Qed.

End ExitReason.

Lemma C9_witness :
  ExitReason Examples.fresh = Normal /\
  SetExitReasons [Normal; ObjectDestroyed] Examples.fresh
  = Ok (set_ExitReason ObjectDestroyed (set_ExitReason Normal Examples.fresh))
  /\ (length (filter abnormal [Normal; ObjectDestroyed]) <= 1)%nat.
Proof.
  split; [reflexivity|]. split; [reflexivity|].
  apply (C9_exit_reason_write_once [Normal; ObjectDestroyed] Examples.fresh
           (set_ExitReason ObjectDestroyed
              (set_ExitReason Normal Examples.fresh)));
    reflexivity.
Defined.

Section Terminal.
Context {LF : ELatentFlags}.

Lemma has_flag_nonzero (f m : Z) : has_flag f m = true -> (f =? 0) = false.
Proof.
  intros H. apply has_flag_true in H. apply Z.eqb_neq.
  intros ->. apply H. apply Z.land_0_l.
Qed.

Lemma Handle_destroy_keeps (gt : bool) (s s' : Sys) :
  Handle_destroy gt s = Ok s' ->
  LatentFlags (promise s') = LatentFlags (promise s) /\ body s' = [].
Proof.
  unfold Handle_destroy, FLatentPromise_dtor, FPromise_dtor, deref_Pending,
    Pending_Detach.
  intros H. inv_ok; split; reflexivity.
Qed.

Lemma ThreadSafeDestroy_keeps (gt : bool) (s s' : Sys) :
  ThreadSafeDestroy gt s = Ok s' ->
  LatentFlags (promise s') = LatentFlags (promise s) /\
  (body s = [] -> body s' = []).
Proof.
  unfold ThreadSafeDestroy. intros H. inv_ok.
  - auto.
  - match goal with H : Handle_destroy _ _ = _ |- _ =>
      apply Handle_destroy_keeps in H; simpl in H; destruct H end. auto.
Qed.

Lemma FPromise_Resume_final (gt b : bool) (s s' : Sys) :
  body s = [] ->
  has_flag (LatentFlags (promise s)) LF_InFinalSuspend = true ->
  FPromise_Resume gt b s = Ok s' ->
  LatentFlags (promise s') = LatentFlags (promise s) /\ body s' = [].
Proof.
  intros Hb Hf H. unfold FPromise_Resume in H. inv_ok.
  - match goal with H : ThreadSafeDestroy _ _ = _ |- _ =>
      apply ThreadSafeDestroy_keeps in H; destruct H end. auto.
  - unfold resume_body in *. simpl in *. rewrite Hb, Hf in *.
    simpl in *. discriminate.
Qed.

Lemma Resume_final (gt b : bool) (s s' : Sys) :
  body s = [] ->
  has_flag (LatentFlags (promise s)) LF_InFinalSuspend = true ->
  Resume gt b s = Ok s' ->
  body s' = [] /\
  has_flag (LatentFlags (promise s')) LF_InFinalSuspend = true /\
  (LatentFlags (promise s) = LF_InFinalSuspend ->
   LatentFlags (promise s') = LF_InFinalSuspend).
Proof.
  intros Hb Hf H. unfold Resume in H.
  apply bind_Ok in H. destruct H as (borrowed & Hbor & H).
  destruct borrowed.
  - injection H as <-. auto.
  - apply bind_Ok in H. destruct H as (s1 & H1 & H).
    assert (body s1 = [] /\
            has_flag (LatentFlags (promise s1)) LF_InFinalSuspend = true /\
            (LatentFlags (promise s) = LF_InFinalSuspend ->
             LatentFlags (promise s1) = LF_InFinalSuspend)) as (Hb1 & Hf1 & He1).
    { unfold AttachToGameThread in H1. clear H Hbor. inv_ok.
      - rewrite has_flag_cleared_other.
        split; [exact Hb|]. split; [exact Hf|].
        intros He. rewrite He. apply cleared_id.
        apply has_flag_final_Detached.
      - auto. }
    apply FPromise_Resume_final in H; [|exact Hb1|exact Hf1].
    destruct H as [Hfl Hbd]. rewrite Hfl. auto.
Qed.

Ltac use_Resume :=
  match goal with
  | H : Resume _ _ _ = Ok _ |- _ =>
      apply Resume_final in H; [destruct H as (? & ? & ?); auto| simpl; auto ..]
  end.

Lemma exec_final (gt : bool) (op : Operation) (s s' : Sys) :
  body s = [] ->
  has_flag (LatentFlags (promise s)) LF_InFinalSuspend = true ->
  exec gt op s = Ok s' ->
  body s' = [] /\
  has_flag (LatentFlags (promise s')) LF_InFinalSuspend = true /\
  (is_Detach op = false ->
   LatentFlags (promise s) = LF_InFinalSuspend ->
   LatentFlags (promise s') = LF_InFinalSuspend).
Proof.
  intros Hb Hf H. destruct op; simpl in H.
  - use_Resume.
  - apply ThreadSafeDestroy_keeps in H. destruct H as [Hfl Hbd].
    rewrite Hfl. auto.
  - unfold AttachToGameThread in H. inv_ok.
    rewrite has_flag_cleared_other.
    split; [exact Hb|]. split; [exact Hf|].
    intros _ He. rewrite He. apply cleared_id, has_flag_final_Detached.
  - inv_ok. rewrite has_flag_set_other.
    split; [exact Hb|]. split; [exact Hf|]. discriminate.
  - inv_ok. auto.
  - unfold SetExitReason in H. inv_ok. auto.
  - unfold SetCurrentAwaiter in H.
    apply bind_Ok in H. destruct H as (? & H & _).
    apply bind_Ok in H. destruct H as (? & _ & H).
    apply bind_Ok in H. destruct H as (? & H & _).
    rewrite (has_flag_nonzero _ _ Hf) in H. discriminate.
  - inv_ok. auto.
  - unfold initial_suspend in H. inv_ok; auto.
  - inv_ok.
    split; [exact Hb|]. split; [apply has_flag_final_InFinalSuspend|].
    reflexivity.
  - unfold UpdateOperation, Respond in H. inv_ok; auto; use_Resume.
  - unfold NotifyActionAborted, SetExitReason in H. inv_ok; auto.
  - unfold NotifyObjectDestroyed, SetExitReason in H. inv_ok; auto.
  - unfold Pending_dtor in H. inv_ok; auto; use_Resume.
Qed.

Lemma exec_all_final (ops : list (bool * Operation)) (s s' : Sys) :
  body s = [] ->
  has_flag (LatentFlags (promise s)) LF_InFinalSuspend = true ->
  exec_all ops s = Ok s' ->
  has_flag (LatentFlags (promise s')) LF_InFinalSuspend = true /\
  (forallb (fun o => negb (is_Detach (snd o))) ops = true ->
   LatentFlags (promise s) = LF_InFinalSuspend ->
   LatentFlags (promise s') = LF_InFinalSuspend).
Proof.
  revert s. induction ops as [|[gt op] ops IH]; intros s Hb Hf H; simpl in H.
  - injection H as <-. auto.
  - apply bind_Ok in H. destruct H as (s1 & H1 & H).
    destruct (exec_final gt op s s1 Hb Hf H1) as (Hb1 & Hf1 & He1).
    destruct (IH s1 Hb1 Hf1 H) as [Hf' He'].
    split; [exact Hf'|].
    simpl. intros Hall He. apply andb_true_iff in Hall.
    destruct Hall as [Hop Hall]. apply negb_true_iff in Hop. auto.
Qed.

(** C6, as amended.  final_suspend sets the flags to exactly InFinalSuspend
    whatever they were, so Detached is off and InFinalSuspend on.  Once the
    body has returned and final_suspend has run, whatever operations follow,
    on whichever threads: the InFinalSuspend flag is never cleared; the
    flags stay exactly InFinalSuspend as long as DetachFromGameThread is not
    among them; and SetCurrentAwaiter fails its check. *)
Theorem C6_final_suspend_terminal
    (gt : bool) (s s1 s' : Sys) (ops : list (bool * Operation))
    (Hret : body s = [])
    (Hfin : resume_body gt s = Ok s1)
    (Hrun : exec_all ops s1 = Ok s') :
  (forall p, LatentFlags (final_suspend p) = LF_InFinalSuspend /\
             has_flag (LatentFlags (final_suspend p)) LF_Detached = false /\
             has_flag (LatentFlags (final_suspend p)) LF_InFinalSuspend
             = true) /\
  promise s1 = final_suspend (promise s) /\
  has_flag (LatentFlags (promise s')) LF_InFinalSuspend = true /\
  (forallb (fun o => negb (is_Detach (snd o))) ops = true ->
   LatentFlags (promise s') = LF_InFinalSuspend) /\
  (forall gt' a, exists msg,
      exec gt' (OpSetCurrentAwaiter a) s' = Fatal msg).
Proof.
  assert (forall p, LatentFlags (final_suspend p) = LF_InFinalSuspend /\
             has_flag (LatentFlags (final_suspend p)) LF_Detached = false /\
             has_flag (LatentFlags (final_suspend p)) LF_InFinalSuspend
             = true) as Hfs.
  { intros p. simpl. split; [reflexivity|].
    split; [apply has_flag_final_Detached|apply has_flag_final_InFinalSuspend]. }
  split; [exact Hfs|].
  unfold resume_body in Hfin. simpl in Hfin. rewrite Hret in Hfin.
  apply bind_Ok in Hfin. destruct Hfin as (_ & _ & Hfin).
  injection Hfin as <-. simpl in *.
  split; [reflexivity|].
  destruct (exec_all_final ops
              (with_promise final_suspend (log EvBodyResumed s)) s' Hret
              (has_flag_final_InFinalSuspend) Hrun) as [Hf He].
  split; [exact Hf|].
  split; [intros Hall; apply He; [exact Hall|reflexivity]|].
  intros gt' a. simpl. unfold SetCurrentAwaiter.
  destruct gt'; simpl; [|eauto].
  rewrite (has_flag_nonzero _ _ Hf). simpl. eauto.
Qed.

End Terminal.

Lemma C6_witness :
  exists s1 s',
    resume_body true (Examples.sys_of
                        (DetachFromGameThread Examples.fresh) []) = Ok s1 /\
    exec_all [(true, OpUpdateOperation NoResponse);
              (true, OpNotifyObjectDestroyed);
              (true, OpAttachToGameThread);
              (true, OpPendingDtor)] s1 = Ok s' /\
    LatentFlags (promise s') = LF_InFinalSuspend.
Proof.
  eexists. eexists.
  split; [vm_compute; reflexivity|]. split; [vm_compute; reflexivity|].
  eapply (C6_final_suspend_terminal true
            (Examples.sys_of (DetachFromGameThread Examples.fresh) []) _ _
            [(true, OpUpdateOperation NoResponse);
             (true, OpNotifyObjectDestroyed);
             (true, OpAttachToGameThread);
             (true, OpPendingDtor)]).
  - reflexivity.
  - vm_compute; reflexivity.
  - vm_compute; reflexivity.
  - reflexivity.
Defined.

(** C6, as claimed, fails.  DetachFromGameThread has no guard: after
    final_suspend it sets Detached again.  And a coroutine that waits at its
    final suspend point still takes an exit reason from its bridge. *)
Lemma C6_counterexample :
  exists s1 s2 s3,
    resume_body true (Examples.sys_of Examples.fresh []) = Ok s1 /\
    LatentFlags (promise s1) = LF_InFinalSuspend /\
    exec true OpDetachFromGameThread s1 = Ok s2 /\
    LatentFlags (promise s2) <> LatentFlags (promise s1) /\
    has_flag (LatentFlags (promise s2)) LF_Detached = true /\
    exec true OpNotifyObjectDestroyed s1 = Ok s3 /\
    ExitReason (promise s3) <> ExitReason (promise s1).
Proof.
  eexists. eexists. eexists.
  split; [vm_compute; reflexivity|].
  split; [reflexivity|]. split; [reflexivity|].
  split; [vm_compute; discriminate|]. split; [reflexivity|].
  split; [vm_compute; reflexivity|]. simpl. discriminate.
Qed.

Section Destroy.

Lemma FLatentPromise_dtor_restores (gt : bool) (s s' : Sys) :
  FLatentPromise_dtor gt s = Ok s' ->
  GLatentExitReason s' = Normal /\ trace s' = trace s /\
  GameThreadTasks s' = GameThreadTasks s /\
  Extras_IsComplete (promise s') = Extras_IsComplete (promise s).
Proof.
  unfold FLatentPromise_dtor, deref_Pending, Pending_Detach.
  intros H. inv_ok; repeat split; reflexivity.
Qed.

Lemma Handle_destroy_restores (gt : bool) (s s' : Sys) :
  Handle_destroy gt s = Ok s' ->
  GLatentExitReason s' = Normal /\
  trace s' = trace s ++ [EvLocalsDestroyed (GLatentExitReason s); EvCompleted]
  /\ GameThreadTasks s' = GameThreadTasks s /\
  Extras_IsComplete (promise s') = true.
Proof.
  unfold Handle_destroy. intros H.
  apply bind_Ok in H. destruct H as (s1 & H1 & H).
  apply FLatentPromise_dtor_restores in H1. simpl in H1.
  destruct H1 as (Hg & Ht & Hq & _).
  injection H as <-. simpl. rewrite Hg, Ht, Hq, <- app_assoc.
  repeat split; reflexivity.
Qed.


End Destroy.

Example ThreadSafeDestroy_ObjectDestroyed :
  ThreadSafeDestroy true
    (Examples.sys_of (set_ExitReason ObjectDestroyed Examples.fresh)
                     [AwaitAsync])
  = Ok (Examples.sys_of' [EvLocalsDestroyed ObjectDestroyed; EvCompleted]
          (set_Complete true
             (set_ExitReason ObjectDestroyed Examples.fresh))).
Proof. reflexivity. Qed.

Example ThreadSafeDestroy_elsewhere :
  ThreadSafeDestroy false (Examples.sys_of Examples.fresh [AwaitAsync])
  = Ok (post TaskThreadSafeDestroy
          (Examples.sys_of Examples.fresh [AwaitAsync])).
Proof. reflexivity. Qed.

Section Held.
Context {LF : ELatentFlags}.







End Held.


Section Tick.
Context {LF : ELatentFlags}.

Lemma resumptions_app (t u : list Event) :
  resumptions (t ++ u) = (resumptions t + resumptions u)%nat.
Proof. unfold resumptions. rewrite filter_app, length_app. reflexivity. Qed.

Lemma trace_logs (evs : list Event) (s : Sys) :
  trace (fold_left (fun s e => log e s) evs s) = trace s ++ evs.
Proof.
  revert s. induction evs as [|e evs IH]; intros s; simpl.
  - symmetry. apply app_nil_r.
  - rewrite IH. simpl. rewrite <- app_assoc. reflexivity.
Qed.

Lemma resume_body_resumes (gt : bool) (s s' : Sys) :
  resume_body gt s = Ok s' ->
  resumptions (trace s') = S (resumptions (trace s)).
Proof.
  unfold resume_body, SetCurrentAwaiter, Pending_SetCurrentAwaiter,
    deref_Pending. simpl.
  intros H. inv_ok;
    rewrite ?trace_logs; simpl; rewrite ?resumptions_app;
    try match goal with
        | |- context [CurrentAwaiter ?b] => destruct (CurrentAwaiter b)
        end;
    change (resumptions [EvBodyResumed]) with 1%nat;
    change (resumptions []) with 0%nat;
    change (resumptions [EvEnsure "Unexpected double await"]) with 0%nat;
    lia.
Qed.

Lemma ThreadSafeDestroy_on_thread (s s' : Sys) :
  ThreadSafeDestroy true s = Ok s' -> Extras_IsComplete (promise s') = true.
Proof.
  intros H. unfold ThreadSafeDestroy in H. simpl in H.
  apply bind_Ok in H. destruct H as (s1 & Hd & H).
  apply Handle_destroy_restores in Hd.
  apply bind_Ok in H. destruct H as (_ & _ & H). injection H as <-.
  apply Hd.
Qed.

(** A resume on the game thread that leaves the promise alive has run the
    body. *)
Lemma Resume_alive (s s' : Sys) :
  Resume true false s = Ok s' ->
  Extras_IsComplete (promise s') = false ->
  resumptions (trace s') = S (resumptions (trace s)).
Proof.
  intros H Halive. unfold Resume in H. simpl in H.
  apply bind_Ok in H. destruct H as (s1 & H1 & H).
  assert (trace s1 = trace s) as <-.
  { unfold AttachToGameThread in H1. inv_ok; reflexivity. }
  unfold FPromise_Resume in H.
  apply bind_Ok in H. destruct H as (_ & _ & H).
  destruct (bCanceled (promise s1)).
  - apply ThreadSafeDestroy_on_thread in H. congruence.
  - apply resume_body_resumes in H. exact H.
Qed.

Lemma Respond_Ok (p : FLatentPromise) (Response Response' : FLatentResponse)
    (Info : FLatentActionInfo) :
  Respond true p Response Info = Ok Response' ->
  Extras_IsComplete p = false /\
  bRemoveAction Response'
  = ((bCanceled p && negb (has_flag (LatentFlags p) LF_Detached))
     || has_flag (LatentFlags p) LF_InFinalSuspend)
    || bRemoveAction Response /\
  LinksToExecute Response'
  = LinksToExecute Response
    ++ (if has_flag (LatentFlags p) LF_InFinalSuspend
        then [(ExecutionFunction Info, Linkage Info, CallbackTarget Info)]
        else []).
Proof.
  unfold Respond. simpl. intros H.
  apply bind_Ok in H. destruct H as (u & Hc & H). apply checkf_Ok in Hc.
  apply negb_true_iff in Hc. split; [exact Hc|].
  injection H as <-.
  destruct (has_flag (LatentFlags p) LF_InFinalSuspend);
    destruct (bCanceled p && negb (has_flag (LatentFlags p) LF_Detached));
    simpl; rewrite ?app_nil_r; auto.
Qed.

(** C5.  A tick of the bridge whose promise pointer is live.  When the
    current awaiter reports ready, the promise is resumed from the state in
    which the awaiter pointer is already cleared, and the body runs; when
    not, nothing changes.  The response is then computed from the promise
    as the resume left it: the action is marked complete exactly when that
    promise is canceled and attached or in final suspend (a mark already on
    the response stays), and the link of the latent info is triggered
    exactly when it is in final suspend. *)
Theorem C5_UpdateOperation
    (s s' : Sys) (b : FPendingLatentCoroutine)
    (Response Response' : FLatentResponse)
    (Hb : PendingLatentCoroutine (promise s) = Some b)
    (Hlive : Promise b = true)
    (Hrun : UpdateOperation true s Response = Ok (s', Response')) :
  let ready := match CurrentAwaiter b with
               | Some a => ShouldResume a
               | None => false
               end in
  let cleared :=
    with_promise (set_Pending (Some (set_CurrentAwaiter None b))) s in
  let p' := promise s' in
  let bFinalSuspend := has_flag (LatentFlags p') LF_InFinalSuspend in
  (if ready
   then Resume true false cleared = Ok s' /\
        resumptions (trace s') = S (resumptions (trace s))
   else s' = s) /\
  Respond true p' Response (LatentInfo b) = Ok Response' /\
  bRemoveAction Response'
  = ((bCanceled p' && negb (has_flag (LatentFlags p') LF_Detached))
     || bFinalSuspend) || bRemoveAction Response /\
  LinksToExecute Response'
  = LinksToExecute Response
    ++ (if bFinalSuspend
        then [(ExecutionFunction (LatentInfo b), Linkage (LatentInfo b),
               CallbackTarget (LatentInfo b))]
        else []).
Proof.
  intros ready cleared p' bFinalSuspend.
  unfold UpdateOperation, deref_Pending in Hrun. simpl in Hrun.
  rewrite Hb in Hrun. simpl in Hrun. rewrite Hlive in Hrun. simpl in Hrun.
  apply bind_Ok in Hrun. destruct Hrun as (s1 & Hres & Hrun).
  apply bind_Ok in Hrun. destruct Hrun as (R & Hresp & Hrun).
  injection Hrun as -> ->.
  destruct (Respond_Ok _ _ _ _ Hresp) as (Halive & Hdone & Hlinks).
  split; [|split; [exact Hresp|split; [exact Hdone|exact Hlinks]]].
  unfold ready. destruct (CurrentAwaiter b) as [a|].
  - destruct (ShouldResume a).
    + split; [exact Hres|].
      apply (Resume_alive _ _ Hres Halive).
    + injection Hres as <-. reflexivity.
  - injection Hres as <-. reflexivity.
Qed.

End Tick.

Lemma C5_witness :
  exists s' Response',
    UpdateOperation true
      (Examples.sys_of
         (set_Pending
            (Some (set_CurrentAwaiter
                     (Some {| awaiter_id := 5; ShouldResume := true |})
                     Examples.bridge)) Examples.fresh) [])
      NoResponse = Ok (s', Response') /\
    resumptions (trace s') = 1%nat /\
    bRemoveAction Response' = true /\
    LinksToExecute Response' = [("Continue"%string, 3, Some Examples.actor)].
Proof.
  eexists. eexists.
  split; [vm_compute; reflexivity|].
  pose proof (C5_UpdateOperation
    (Examples.sys_of
         (set_Pending
            (Some (set_CurrentAwaiter
                     (Some {| awaiter_id := 5; ShouldResume := true |})
                     Examples.bridge)) Examples.fresh) [])
    _ _ NoResponse _ eq_refl eq_refl ltac:(vm_compute; reflexivity)) as H.
  simpl in H. destruct H as ((_ & Hr) & _ & Hd & Hl).
  split; [exact Hr|]. split; [exact Hd|exact Hl].
Defined.

Section Construction.

(** What [Init] leaves alone, and what it guarantees when it returns. *)
Lemma Init_Ok (GWorld : option UWorld) (addr : nat) (Args : list Arg)
    (p p' : FLatentPromise) :
  Init GWorld addr Args p = Ok p' ->
  LatentFlags p' = LatentFlags p /\
  ExitReason p' = ExitReason p /\
  bCanceled p' = bCanceled p /\
  Extras_IsComplete p' = Extras_IsComplete p /\
  is_null (World p') = false /\
  exists b, PendingLatentCoroutine p' = Some b /\
            (PendingLatentCoroutine p = Some b \/
             PendingLatentCoroutine p = None /\ self b = addr /\
             Promise b = true /\ CurrentAwaiter b = None).
Proof.
  revert p. induction Args as [|a Args IH]; intros p H; simpl in H.
  - apply bind_Ok in H. destruct H as (u & Hc & H). apply checkf_Ok in Hc.
    apply negb_true_iff in Hc.
    destruct (PendingLatentCoroutine p) as [b|] eqn:Hb; [|discriminate].
    destruct (is_null (World p)) eqn:Hw.
    + apply bind_Ok in H. destruct H as (u' & Hc' & H).
      apply checkf_Ok in Hc'. apply negb_true_iff in Hc'.
      injection H as <-. simpl in *. rewrite Hb. eauto 10.
    + injection H as <-. rewrite Hb. eauto 10.
  - destruct a as [wc|i|o|].
    + apply IH in H. unfold Init_WorldContext in H.
      destruct (World p), wc; simpl in H; exact H.
    + apply bind_Ok in H. destruct H as (u & Hc & H). apply checkf_Ok in Hc.
      unfold CreateLatentAction in H. rewrite Hc in H. simpl in H.
      apply IH in H. simpl in H.
      destruct H as (? & ? & ? & ? & ? & b & Hb & Hor).
      repeat (split; [assumption|]).
      exists b. split; [exact Hb|]. right.
      destruct (PendingLatentCoroutine p); [discriminate|].
      destruct Hor as [Hor|[Hor _]]; [|discriminate].
      injection Hor as <-. simpl. auto.
    + apply IH in H. unfold Init_WorldContext in H.
      destruct (World p); simpl in H; exact H.
    + apply IH in H. exact H.
Qed.

Lemma FLatentPromise_ctor_Ok (GWorld : option UWorld) (addr : nat)
    (Args : list Arg) (p : FLatentPromise) :
  FLatentPromise_ctor true GWorld addr Args = Ok p ->
  LatentFlags p = 0 /\ bCanceled p = false /\
  Extras_IsComplete p = false /\
  (exists w, World p = Some w) /\
  exists b, PendingLatentCoroutine p = Some b /\ self b = addr /\
            Promise b = true /\ CurrentAwaiter b = None.
Proof.
  unfold FLatentPromise_ctor. simpl. intros H. apply Init_Ok in H.
  simpl in H. destruct H as (Hf & _ & Hc & He & Hw & b & Hb & Hor).
  repeat (split; [assumption|]).
  split.
  - destruct (World p) as [w|]; [eauto|discriminate].
  - exists b. split; [exact Hb|].
    destruct Hor as [Hor|(_ & ? & ? & ?)]; [discriminate|auto].
Qed.

End Construction.

Section Start.
Context {LF : ELatentFlags}.

Lemma same_object_refl (o : UObjectPtr) : same_object o o = true.
Proof. destruct o as [o|]; simpl; [apply Nat.eqb_refl|reflexivity]. Qed.

Lemma FindExistingAction_added (lam : list (UObjectPtr * Z * nat))
    (Target : UObjectPtr) (Id : Z) (Action : nat) :
  FindExistingAction (AddNewAction lam Target Id Action) Target Id <> None.
Proof.
  unfold FindExistingAction, AddNewAction.
  induction lam as [|e lam IH]; simpl.
  - rewrite same_object_refl, Z.eqb_refl. simpl. discriminate.
  - destruct (same_object (fst (fst e)) Target && (snd (fst e) =? Id));
      [discriminate|exact IH].
Qed.

Lemma AddNewAction_changes (lam : list (UObjectPtr * Z * nat))
    (Target : UObjectPtr) (Id : Z) (Action : nat) :
  AddNewAction lam Target Id Action <> lam.
Proof.
  unfold AddNewAction. intros H.
  apply (f_equal (@length _)) in H. rewrite length_app in H. simpl in H. lia.
Qed.

(** C1.  The start of a latent coroutine whose promise the constructor has
    built, on the game thread: it always goes through, and with exactly one
    of two outcomes.  When the action manager has no action for (callback
    target, UUID) and the target is valid, the bridge is added to the action
    manager and the body is resumed, once, within the start; the frame is
    not destroyed.  In every other case the frame is destroyed, the body
    never runs and the action manager is as before. *)
Theorem C1_initial_suspend_exactly_one
    (GWorld : option UWorld) (addr : nat) (Args : list Arg) (s : Sys)
    (Hctor : FLatentPromise_ctor true GWorld addr Args = Ok (promise s)) :
  exists b s',
    PendingLatentCoroutine (promise s) = Some b /\
    start true s = Ok s' /\
    let Target := CallbackTarget (LatentInfo b) in
    let Id := UUID (LatentInfo b) in
    if is_null (FindExistingAction (LAM s) Target Id) && IsValid Target
    then LAM s' = AddNewAction (LAM s) Target Id (self b) /\
         LAM s' <> LAM s /\
         FindExistingAction (LAM s') Target Id <> None /\
         resumptions (trace s') = S (resumptions (trace s)) /\
         Extras_IsComplete (promise s') = false
    else LAM s' = LAM s /\
         resumptions (trace s') = resumptions (trace s) /\
         Extras_IsComplete (promise s') = true /\
         body s' = [].
Proof.
  apply FLatentPromise_ctor_Ok in Hctor.
  destruct Hctor as (Hf & Hc & He & (w & Hw) & b & Hb & _ & HP & HA).
  exists b.
  unfold start, initial_suspend, deref_Pending. simpl.
  rewrite Hw, Hb. simpl.
  destruct (FindExistingAction (LAM s) _ _) as [dup|] eqn:Hdup; simpl.
  - (* a duplicate *)
    unfold Handle_destroy, FLatentPromise_dtor, deref_Pending. simpl.
    destruct (uncaught_exceptions s); simpl.
    + rewrite Hb. simpl. unfold Pending_Detach. rewrite HP. simpl.
      eexists. split; [reflexivity|]. split; [reflexivity|]. simpl.
      repeat split; try reflexivity.
      unfold resumptions. rewrite !filter_app, !length_app. simpl. lia.
    + eexists. split; [reflexivity|]. split; [reflexivity|]. simpl.
      repeat split; try reflexivity.
      unfold resumptions. rewrite !filter_app, !length_app. simpl. lia.
  - destruct (IsValid (CallbackTarget (LatentInfo b))) eqn:Hvalid; simpl.
    + (* registered and started *)
      unfold Resume. simpl. rewrite Hf. simpl.
      unfold FPromise_Resume. simpl. rewrite He, Hc. simpl.
      destruct (resume_body true
                  (set_LAM (AddNewAction (LAM s)
                              (CallbackTarget (LatentInfo b))
                              (UUID (LatentInfo b)) (self b)) s))
        as [s'|msg] eqn:Hres.
      * exists s'. split; [reflexivity|]. split; [reflexivity|].
        pose proof (resume_body_resumes _ _ _ Hres) as Hn. simpl in Hn.
        unfold resume_body, SetCurrentAwaiter, Pending_SetCurrentAwaiter,
          deref_Pending in Hres. simpl in Hres.
        rewrite Hf, Hb in Hres. simpl in Hres.
        destruct (body s) as [|[a|] k]; simpl in Hres;
          rewrite ?HA in Hres; simpl in Hres;
          injection Hres as <-; simpl;
          (split; [reflexivity|]);
          (split; [apply AddNewAction_changes|]);
          (split; [apply FindExistingAction_added|]);
          (split; [exact Hn | assumption]).
      * exfalso.
        unfold resume_body, SetCurrentAwaiter, Pending_SetCurrentAwaiter,
          deref_Pending in Hres. simpl in Hres.
        rewrite Hf, Hb in Hres. simpl in Hres.
        destruct (body s) as [|[a|] k]; simpl in Hres;
          rewrite ?HA in Hres; simpl in Hres; discriminate.
    + (* an invalid target *)
      unfold Handle_destroy, FLatentPromise_dtor, deref_Pending. simpl.
      destruct (uncaught_exceptions s); simpl.
      * rewrite Hb. simpl. unfold Pending_Detach. rewrite HP. simpl.
        eexists. split; [reflexivity|]. split; [reflexivity|]. simpl.
        repeat split; try reflexivity.
      unfold resumptions. rewrite !filter_app, !length_app. simpl. lia.
      * eexists. split; [reflexivity|]. split; [reflexivity|]. simpl.
        repeat split; try reflexivity.
      unfold resumptions. rewrite !filter_app, !length_app. simpl. lia.
Qed.

End Start.

Lemma C1_witness :
  FLatentPromise_ctor true None 100
    [ArgObject Examples.actor; ArgLatentInfo Examples.info]
  = Ok Examples.fresh /\
  exists s',
    start true (Examples.sys_of Examples.fresh [AwaitAsync]) = Ok s' /\
    LAM s' = [(Some Examples.actor, 42, 100%nat)] /\
    resumptions (trace s') = 1%nat /\
    Extras_IsComplete (promise s') = false.
Proof.
  split; [reflexivity|].
  destruct (C1_initial_suspend_exactly_one None 100
              [ArgObject Examples.actor; ArgLatentInfo Examples.info]
              (Examples.sys_of Examples.fresh [AwaitAsync]) eq_refl)
    as (b & s' & Hb & Hs & H).
  injection Hb as <-. simpl in H.
  destruct H as (Hl & _ & _ & Hn & Hc).
  exists s'. split; [exact Hs|]. split; [exact Hl|]. split; assumption.
Defined.

Section WorldResolution.




End WorldResolution.



End LatentProofs.

(** ** Aggregate awaiters *)

Module AggregateProofs.
Import Aggregate.

Section Counting.

Lemma run_app (st : State) (e1 e2 : list Ev) :
  run st (e1 ++ e2) = run (run st e1) e2.
Proof. apply fold_left_app. Qed.

Lemma completed_app (e1 e2 : list Ev) :
  completed (e1 ++ e2) = completed e1 ++ completed e2.
Proof. apply flat_map_app. Qed.

Lemma awaits_app (e1 e2 : list Ev) :
  awaits (e1 ++ e2) = awaits e1 ++ awaits e2.
Proof. apply flat_map_app. Qed.

Lemma completed_children (l : list nat) :
  completed (map ChildCompletes l) = l /\ awaits (map ChildCompletes l) = [].
Proof.
  induction l as [|i l [IH1 IH2]]; simpl; [auto|].
  unfold completed, awaits in *. simpl. rewrite IH1, IH2. auto.
Qed.

(** The constructor's fold is a run in which the ready children complete,
    in argument order. *)
Lemma Consume_all_run (Awaiters : list bool) (i : nat) (st : State) :
  Consume_all (Z.of_nat i) Awaiters st
  = run st (map ChildCompletes (ready_children i Awaiters)).
Proof.
  revert i st. induction Awaiters as [|a Awaiters IH]; intros i st; simpl.
  - reflexivity.
  - replace (Z.of_nat i + 1) with (Z.of_nat (S i)) by lia.
    rewrite IH. destruct a; reflexivity.
Qed.

Lemma FAggregateAwaiter_run (Count : Z) (Awaiters : list bool)
    (evs : list Ev) :
  run (FAggregateAwaiter Count Awaiters) evs
  = run (init Count) (map ChildCompletes (ready_children 0 Awaiters) ++ evs).
Proof.
  unfold FAggregateAwaiter. rewrite (Consume_all_run Awaiters 0).
  symmetry. apply run_app.
Qed.

Lemma winner_snoc (c0 : Z) (l : list nat) (i : nat) :
  winner c0 (l ++ [i])
  = if c0 =? Z.of_nat (length l) + 1 then Some i else winner c0 l.
Proof.
  unfold winner. destruct (c0 <=? 0) eqn:Hc0.
  - apply Z.leb_le in Hc0.
    destruct (c0 =? Z.of_nat (length l) + 1) eqn:He; [|reflexivity].
    apply Z.eqb_eq in He. lia.
  - apply Z.leb_gt in Hc0.
    destruct (c0 =? Z.of_nat (length l) + 1) eqn:He.
    + apply Z.eqb_eq in He.
      replace (Z.to_nat c0 - 1)%nat with (length l) by lia.
      rewrite nth_error_app2 by lia. rewrite Nat.sub_diag. reflexivity.
    + apply Z.eqb_neq in He.
      destruct (Nat.lt_ge_cases (Z.to_nat c0 - 1) (length l)) as [Hlt|Hge].
      * apply nth_error_app1. exact Hlt.
      * transitivity (@None nat).
        -- apply nth_error_None. rewrite length_app. simpl. lia.
        -- symmetry. apply nth_error_None. lia.
Qed.

Lemma run_Inv (c0 : Z) (evs : list Ev) :
  (length (awaits evs) <= 1)%nat ->
  Inv c0 evs (run (init c0) evs).
Proof.
  induction evs as [|e evs IH] using rev_ind; intros Hw.
  - unfold Inv, winner. simpl.
    split; [lia|].
    split; [destruct (c0 <=? 0); [|destruct (Z.to_nat c0 - 1)%nat];
            reflexivity|auto].
  - rewrite awaits_app, length_app in Hw.
    rewrite run_app. simpl.
    assert (Hw' : (length (awaits evs) <= 1)%nat) by lia.
    specialize (IH Hw'). destruct IH as (HC & HI & HA).
    set (st := run (init c0) evs) in *.
    unfold Inv. rewrite completed_app, awaits_app, length_app.
    destruct e as [i|h]; simpl.
    + (* a child completes *)
      rewrite app_nil_r, winner_snoc.
      unfold Consume_finish. rewrite HC.
      replace (c0 =? Z.of_nat (length (completed evs)) + 1)
        with (c0 - Z.of_nat (length (completed evs)) - 1 =? 0)
        by (apply eq_true_iff_eq; rewrite !Z.eqb_eq; lia).
      destruct (c0 - Z.of_nat (length (completed evs)) - 1 =? 0) eqn:Hz;
        simpl.
      * apply Z.eqb_eq in Hz.
        destruct (awaits evs) as [|h hs].
        -- destruct HA as (HH & HR & HY). rewrite HH. simpl.
           split; [lia|]. split; [reflexivity|]. auto.
        -- destruct HA as [(HY & HR)|(HY & HR & HH & Hle)]; [|lia].
           destruct (c0 <=? Z.of_nat (length (completed evs))) eqn:Hle;
             [apply Z.leb_le in Hle; lia|].
           destruct HR as [HR HH]. rewrite HH. simpl.
           split; [lia|]. split; [reflexivity|]. left.
           split; [exact HY|].
           replace (c0 <=? Z.of_nat (length (completed evs) + 1)) with true
             by (symmetry; apply Z.leb_le; lia).
           rewrite HR. reflexivity.
      * apply Z.eqb_neq in Hz.
        split; [lia|]. split; [exact HI|].
        destruct (awaits evs) as [|h hs]; [exact HA|].
        destruct HA as [(HY & HR)|(HY & HR & HH & Hle)].
        -- left. split; [exact HY|].
           destruct (c0 <=? Z.of_nat (length (completed evs))) eqn:Hle.
           ++ apply Z.leb_le in Hle.
              replace (c0 <=? Z.of_nat (length (completed evs) + 1))
                with true by (symmetry; apply Z.leb_le; lia).
              exact HR.
           ++ apply Z.leb_gt in Hle.
              replace (c0 <=? Z.of_nat (length (completed evs) + 1))
                with false by (symmetry; apply Z.leb_gt; lia).
              exact HR.
        -- right. repeat split; try assumption. lia.
    + (* the parent awaits *)
      rewrite !app_nil_r, Nat.add_0_r.
      destruct (awaits evs) as [|h' hs]; [|simpl in Hw; lia].
      destruct HA as (HH & HR & HY). simpl.
      unfold co_await, await_ready. rewrite HC.
      destruct (c0 - Z.of_nat (length (completed evs)) <=? 0) eqn:Hz; simpl.
      * apply Z.leb_le in Hz.
        split; [exact HC|]. split; [exact HI|]. right.
        rewrite HY. repeat split; try assumption. lia.
      * apply Z.leb_gt in Hz.
        split; [exact HC|]. split; [exact HI|]. left.
        split; [exact HY|].
        replace (c0 <=? Z.of_nat (length (completed evs))) with false
          by (symmetry; apply Z.leb_gt; lia).
        auto.
Qed.


Lemma continuations_run (c0 : Z) (evs : list Ev) :
  (length (awaits evs) <= 1)%nat ->
  continuations (run (init c0) evs)
  = match awaits evs with
    | [] => 0%nat
    | _ :: _ => if c0 <=? Z.of_nat (length (completed evs)) then 1%nat
                else 0%nat
    end.
Proof.
  intros Hw. destruct (run_Inv c0 evs Hw) as (_ & _ & HA).
  unfold continuations. destruct (awaits evs) as [|h hs].
  - destruct HA as (_ & -> & ->). reflexivity.
  - destruct HA as [(-> & HR)|(-> & -> & _ & Hle)].
    + destruct (c0 <=? _); [rewrite HR|destruct HR as [-> _]]; reflexivity.
    + apply Z.leb_le in Hle. rewrite Hle. reflexivity.
Qed.

Lemma Resumed_run (st : State) (evs : list Ev) :
  exists l, Resumed (run st evs) = Resumed st ++ l.
Proof.
  revert st. induction evs as [|e evs IH]; intros st; simpl.
  - exists []. symmetry. apply app_nil_r.
  - destruct (IH (step st e)) as (l & Hl). rewrite Hl.
    destruct e as [i|h]; simpl.
    + unfold Consume_finish.
      destruct (negb (Count (Data st) - 1 =? 0)); simpl; [eauto|].
      destruct (Handle (Data st)); simpl; [|eauto].
      rewrite <- app_assoc. eauto.
    + unfold co_await. destruct (await_ready (Data st)); simpl; eauto.
Qed.

Lemma schedule_prefix (Awaiters : list bool) (pre post : list Ev) :
  schedule Awaiters (pre ++ post) -> schedule Awaiters pre.
Proof.
  unfold schedule, completion_order.
  rewrite completed_app, awaits_app, length_app, app_assoc.
  intros (Hnd & Hlt & Hw). split; [|split].
  - apply NoDup_app_remove_r in Hnd. exact Hnd.
  - intros i Hi. apply Hlt. apply in_or_app. left. exact Hi.
  - lia.
Qed.

Lemma schedule_length (Awaiters : list bool) (evs : list Ev) :
  schedule Awaiters evs ->
  (length (completion_order Awaiters evs) <= length Awaiters)%nat /\
  ((length Awaiters <= length (completion_order Awaiters evs))%nat
   <-> forall i, (i < length Awaiters)%nat ->
                 In i (completion_order Awaiters evs)).
Proof.
  intros (Hnd & Hlt & _).
  set (order := completion_order Awaiters evs) in *.
  assert (Hincl : incl order (seq 0 (length Awaiters))).
  { intros i Hi. apply in_seq. specialize (Hlt i Hi). lia. }
  split.
  - pose proof (NoDup_incl_length Hnd Hincl) as H.
    rewrite length_seq in H. exact H.
  - split.
    + intros Hle i Hi.
      assert (Hback : incl (seq 0 (length Awaiters)) order).
      { apply NoDup_length_incl;
          [exact Hnd | rewrite length_seq; exact Hle | exact Hincl]. }
      apply Hback. apply in_seq. lia.
    + intros Hall.
      assert (Hsub : incl (seq 0 (length Awaiters)) order).
      { intros i Hi. apply in_seq in Hi. apply Hall. lia. }
      pose proof (NoDup_incl_length (seq_NoDup _ _) Hsub) as H.
      rewrite length_seq in H. exact H.
Qed.

Lemma run_from_ctor (Count : Z) (Awaiters : list bool) (evs : list Ev) :
  exists all,
    run (FAggregateAwaiter Count Awaiters) evs = run (init Count) all /\
    completed all = completion_order Awaiters evs /\
    awaits all = awaits evs.
Proof.
  exists (map ChildCompletes (ready_children 0 Awaiters) ++ evs).
  split; [apply FAggregateAwaiter_run|].
  rewrite completed_app, awaits_app.
  destruct (completed_children (ready_children 0 Awaiters)) as [-> ->].
  split; reflexivity.
Qed.

(** The count never leaves the range between its initial value and that
    value minus the number of children: the int of the source cannot
    overflow. *)
Lemma Count_range (Count0 : Z) (Awaiters : list bool) (evs : list Ev) :
  schedule Awaiters evs ->
  Count (Data (run (FAggregateAwaiter Count0 Awaiters) evs))
  = Count0 - Z.of_nat (length (completion_order Awaiters evs)) /\
  Count0 - Z.of_nat (length Awaiters)
  <= Count (Data (run (FAggregateAwaiter Count0 Awaiters) evs)) <= Count0.
Proof.
  intros Hs.
  destruct (run_from_ctor Count0 Awaiters evs) as (all & -> & Hc & Ha).
  destruct (run_Inv Count0 all) as (HC & _).
  { rewrite Ha. apply Hs. }
  rewrite HC, Hc.
  pose proof (proj1 (schedule_length Awaiters evs Hs)). lia.
Qed.

(** C3.  WhenAll starts the count at the number of children.  Under every
    schedule the parent goes on past its co_await at most once: once if it
    has awaited and every child has completed, not at all otherwise, so at
    no point of a schedule before the last child has completed; and with no
    children the awaiter is ready at once, the parent going on without
    suspending. *)
Theorem C3_WhenAll
    (Awaiters : list bool) (evs : list Ev)
    (Hs : schedule Awaiters evs) :
  let N := length Awaiters in
  let st := run (WhenAll Awaiters) evs in
  let order := completion_order Awaiters evs in
  Count (FData_new (WhenAll_Count Awaiters)) = Z.of_nat N /\
  (awaits evs <> [] -> (forall i, (i < N)%nat -> In i order) ->
   continuations st = 1%nat) /\
  (awaits evs = [] \/ (exists i, (i < N)%nat /\ ~ In i order) ->
   continuations st = 0%nat) /\
  (forall pre post,
      evs = pre ++ post ->
      (exists i, (i < N)%nat /\ ~ In i (completion_order Awaiters pre)) ->
      continuations (run (WhenAll Awaiters) pre) = 0%nat) /\
  (N = 0%nat ->
   await_ready (Data (WhenAll Awaiters)) = true /\
   forall h, continuations (co_await h (WhenAll Awaiters)) = 1%nat /\
             Handle (Data (co_await h (WhenAll Awaiters))) = None).
Proof.
  intros N st order.
  assert (Hcount : forall evs', schedule Awaiters evs' ->
            continuations (run (WhenAll Awaiters) evs')
            = match awaits evs' with
              | [] => 0%nat
              | _ :: _ =>
                  if (N <=? length (completion_order Awaiters evs'))%nat
                  then 1%nat else 0%nat
              end).
  { intros evs' Hs'. unfold WhenAll.
    destruct (run_from_ctor (WhenAll_Count Awaiters) Awaiters evs')
      as (all & -> & Hc & Ha).
    rewrite continuations_run by (rewrite Ha; apply Hs').
    rewrite Ha, Hc. destruct (awaits evs'); [reflexivity|].
    unfold WhenAll_Count. fold N.
    destruct (N <=? length (completion_order Awaiters evs'))%nat eqn:Hle.
    - apply Nat.leb_le in Hle.
      replace (Z.of_nat N <=? _) with true
        by (symmetry; apply Z.leb_le; lia). reflexivity.
    - apply Nat.leb_gt in Hle.
      replace (Z.of_nat N <=? _) with false
        by (symmetry; apply Z.leb_gt; lia). reflexivity. }
  assert (Hzero : forall evs', schedule Awaiters evs' ->
            (exists i, (i < N)%nat /\
                       ~ In i (completion_order Awaiters evs')) ->
            continuations (run (WhenAll Awaiters) evs') = 0%nat).
  { intros evs' Hs' (i & Hi & Hni). rewrite (Hcount evs' Hs').
    destruct (awaits evs'); [reflexivity|].
    destruct (N <=? length (completion_order Awaiters evs'))%nat eqn:Hle;
      [|reflexivity].
    apply Nat.leb_le in Hle.
    exfalso. apply Hni.
    apply (proj1 (proj2 (schedule_length Awaiters evs' Hs')) Hle i Hi). }
  split; [reflexivity|].
  split; [|split; [|split]].
  - intros Haw Hall. unfold st. rewrite (Hcount evs Hs).
    destruct (awaits evs); [contradiction|].
    apply (proj2 (proj2 (schedule_length Awaiters evs Hs))) in Hall.
    apply Nat.leb_le in Hall. fold N in Hall. rewrite Hall. reflexivity.
  - intros [Haw|Hmiss].
    + unfold st. rewrite (Hcount evs Hs), Haw. reflexivity.
    + apply (Hzero evs Hs Hmiss).
  - intros pre post -> Hmiss.
    apply (Hzero pre (schedule_prefix _ _ _ Hs) Hmiss).
  - intros HN. unfold N in HN. apply length_zero_iff_nil in HN. subst.
    split; [reflexivity|]. intros h. split; reflexivity.
Qed.


Lemma schedule_awaits (Awaiters : list bool) (evs : list Ev) :
  schedule Awaiters evs -> (length (awaits evs) <= 1)%nat.
Proof. intros (_ & _ & H). exact H. Qed.

(** C2.  WhenAny starts the count at 1 when it has children and at 0 when
    it has none.  With children, under every schedule the parent goes on
    past its co_await at most once: once if it has awaited and some child
    has completed, not at all otherwise; the value of the co_await is the
    position of the first child to complete, which is the child whose
    decrement took the count to zero; and a parent that suspended before
    any child completed is resumed by the first completion, and by no
    later one. *)
Theorem C2_WhenAny
    (Awaiters : list bool) (evs : list Ev)
    (Hs : schedule Awaiters evs) :
  let st := run (WhenAny Awaiters) evs in
  let order := completion_order Awaiters evs in
  Count (FData_new (WhenAny_Count Awaiters))
  = (if Nat.eqb (length Awaiters) 0 then 0 else 1) /\
  (Awaiters <> [] ->
   continuations st = match awaits evs, order with
                      | _ :: _, _ :: _ => 1%nat
                      | _, _ => 0%nat
                      end /\
   (forall i rest,
       order = i :: rest ->
       await_resume st = Z.of_nat i /\ (i < length Awaiters)%nat) /\
   (forall pre post i,
       evs = pre ++ ChildCompletes i :: post ->
       Count (Data (run (WhenAny Awaiters) (pre ++ [ChildCompletes i]))) = 0 ->
       Count (Data (run (WhenAny Awaiters) pre)) = 1 /\
       await_resume st = Z.of_nat i) /\
   (forall pre post i h,
       evs = pre ++ ChildCompletes i :: post ->
       completion_order Awaiters pre = [] -> awaits pre = [h] ->
       continuations (run (WhenAny Awaiters) pre) = 0%nat /\
       Resumed (run (WhenAny Awaiters) (pre ++ [ChildCompletes i])) = [h] /\
       Resumed st = [h] /\ Ready st = 0%nat)).
Proof.
  intros st order.
  split; [unfold WhenAny_Count; destruct Awaiters; reflexivity|].
  intros Hne.
  assert (Hc0 : WhenAny_Count Awaiters = 1)
    by (unfold WhenAny_Count; destruct Awaiters; [contradiction|reflexivity]).
  assert (Hrun : forall evs', schedule Awaiters evs' ->
            exists all,
              run (WhenAny Awaiters) evs' = run (init 1) all /\
              completed all = completion_order Awaiters evs' /\
              awaits all = awaits evs' /\
              Inv 1 all (run (init 1) all)).
  { intros evs' Hs'. unfold WhenAny. rewrite Hc0.
    destruct (run_from_ctor 1 Awaiters evs') as (all & Hr & Hc & Ha).
    exists all.
    split; [exact Hr|]. split; [exact Hc|]. split; [exact Ha|].
    apply run_Inv. rewrite Ha. apply (schedule_awaits _ _ Hs'). }
  assert (Hcont : forall evs', schedule Awaiters evs' ->
            continuations (run (WhenAny Awaiters) evs')
            = match awaits evs', completion_order Awaiters evs' with
              | _ :: _, _ :: _ => 1%nat
              | _, _ => 0%nat
              end).
  { intros evs' Hs'. unfold WhenAny. rewrite Hc0.
    destruct (run_from_ctor 1 Awaiters evs') as (all & -> & Hc & Ha).
    rewrite continuations_run
      by (rewrite Ha; apply (schedule_awaits _ _ Hs')).
    rewrite Ha, Hc. destruct (awaits evs'); [reflexivity|].
    destruct (completion_order Awaiters evs') as [|i rest]; [reflexivity|].
    replace (1 <=? Z.of_nat (length (i :: rest))) with true
      by (symmetry; apply Z.leb_le; simpl length; lia).
    reflexivity. }
  assert (Hidx : forall i rest,
            order = i :: rest -> await_resume st = Z.of_nat i).
  { intros i rest Ho. unfold st.
    destruct (Hrun evs Hs) as (all & -> & Hc & _ & (_ & HI & _)).
    unfold await_resume, GetResumerIndex. rewrite HI, Hc.
    fold order. rewrite Ho. reflexivity. }
  split; [apply (Hcont evs Hs)|].
  split; [|split].
  - intros i rest Ho. split; [apply (Hidx i rest Ho)|].
    destruct Hs as (_ & Hlt & _). apply Hlt. fold order. rewrite Ho.
    left. reflexivity.
  - intros pre post i -> Hzero.
    assert (Hpre : schedule Awaiters pre)
      by (apply (schedule_prefix _ _ _ Hs)).
    assert (Hpre1 : schedule Awaiters (pre ++ [ChildCompletes i])).
    { apply (schedule_prefix _ _ post).
      rewrite <- app_assoc. exact Hs. }
    destruct (Hrun _ Hpre1) as (all1 & Hr1 & Hc1 & _ & (HC1 & _)).
    rewrite Hr1, HC1, Hc1 in Hzero.
    unfold completion_order in Hzero.
    rewrite completed_app, app_assoc, length_app in Hzero.
    change (completed [ChildCompletes i]) with [i] in Hzero.
    simpl length in Hzero.
    assert (Hempty : completion_order Awaiters pre = []).
    { apply length_zero_iff_nil. unfold completion_order. lia. }
    split.
    + destruct (Hrun _ Hpre) as (all0 & -> & Hc0' & _ & (HC0 & _)).
      rewrite HC0, Hc0', Hempty. reflexivity.
    + apply (Hidx i (completed post)). unfold order, completion_order.
      rewrite completed_app. simpl.
      unfold completion_order in Hempty. apply app_eq_nil in Hempty.
      destruct Hempty as [-> ->]. reflexivity.
  - intros pre post i h -> Hempty Hh.
    assert (Hpre : schedule Awaiters pre)
      by (apply (schedule_prefix _ _ _ Hs)).
    destruct (Hrun _ Hpre) as (all0 & Hr0 & Hc0' & Ha0 & (HC0 & _ & HA0)).
    rewrite Ha0, Hh, Hc0', Hempty in HA0. simpl in HA0.
    rewrite Hc0', Hempty in HC0. simpl in HC0.
    destruct HA0 as [(HY & HR & HH)|(_ & _ & _ & Hle)]; [|lia].
    assert (Hstep : Resumed (run (WhenAny Awaiters)
                               (pre ++ [ChildCompletes i])) = [h]).
    { rewrite run_app, Hr0. simpl. unfold Consume_finish.
      rewrite HC0, HH, HR. reflexivity. }
    split; [unfold continuations; rewrite Hr0, HR, HY; reflexivity|].
    split; [exact Hstep|].
    assert (Hone : continuations st = 1%nat).
    { unfold st. rewrite (Hcont _ Hs). rewrite awaits_app, Hh. simpl.
      unfold completion_order. rewrite completed_app, app_assoc. simpl.
      destruct (ready_children 0 Awaiters ++ completed pre); reflexivity. }
    destruct (Resumed_run (run (WhenAny Awaiters)
                             (pre ++ [ChildCompletes i])) post)
      as (l & Hl).
    rewrite <- run_app, <- app_assoc in Hl. simpl in Hl.
    fold st in Hl. rewrite Hstep in Hl.
    unfold continuations in Hone. rewrite Hl in Hone. simpl in Hone.
    rewrite Hl.
    destruct l; simpl in Hone; [|lia].
    split; [reflexivity|lia].
Qed.

End Counting.

Lemma schedule_children_late :
  schedule Examples.children Examples.late.
Proof.
  split; [|split].
  - repeat constructor; simpl; intuition discriminate.
  - simpl. intros i [<-|[<-|[<-|[]]]]; lia.
  - simpl. lia.
Qed.

Lemma schedule_sleepers_late :
  schedule Examples.sleepers Examples.late.
Proof.
  split; [|split].
  - repeat constructor; simpl; intuition discriminate.
  - simpl. intros i [<-|[<-|[]]]; lia.
  - simpl. lia.
Qed.

Lemma C2_witness :
  schedule Examples.sleepers Examples.late /\
  continuations (run (WhenAny Examples.sleepers) Examples.late) = 1%nat /\
  await_resume (run (WhenAny Examples.sleepers) Examples.late) = 2 /\
  Resumed (run (WhenAny Examples.sleepers) Examples.late) = [9%nat].
Proof.
  split; [exact schedule_sleepers_late|].
  destruct (C2_WhenAny Examples.sleepers Examples.late
              schedule_sleepers_late) as (_ & H).
  destruct (H ltac:(discriminate)) as (Hc & Hi & _ & Hp).
  split; [exact Hc|].
  split; [exact (proj1 (Hi 2%nat [0%nat] eq_refl))|].
  exact (proj1 (proj2 (proj2
           (Hp [ParentAwaits 9] [ChildCompletes 0] 2%nat 9%nat
               eq_refl eq_refl eq_refl)))).
Defined.

Lemma C3_witness :
  schedule Examples.children Examples.late /\
  continuations (run (WhenAll Examples.children) Examples.late) = 1%nat /\
  continuations (run (WhenAll Examples.children)
                     [ParentAwaits 9; ChildCompletes 2]) = 0%nat.
Proof.
  split; [exact schedule_children_late|].
  destruct (C3_WhenAll Examples.children Examples.late
              schedule_children_late) as (_ & Hall & _ & Hpre & _).
  split.
  - apply Hall; [discriminate|].
    simpl. intros i Hi.
    destruct i as [|[|[|i]]]; [tauto|tauto|tauto|lia].
  - apply (Hpre [ParentAwaits 9; ChildCompletes 2] [ChildCompletes 0]
                eq_refl).
    exists 0%nat. split; [simpl; lia|].
    simpl. intros [H|[H|[]]]; discriminate.
Defined.

End AggregateProofs.

(** ** The ability promise *)

Module AbilityProofs.
Import Ability.

Section Authorization.

Lemma FAbilityPromise_flag (gt : bool) (GWorld : option UWorld) (addr : nat)
    (Target : UObject) (g g1 : Statics) (p : Latent.FLatentPromise) :
  FAbilityPromise gt GWorld addr Target g = Ok (p, g1) ->
  bCalledFromActivate g1 = bCalledFromActivate g /\ trace g1 = trace g /\
  DummyId g1 = DummyId g + 1.
Proof.
  unfold FAbilityPromise, MakeLatentInfo. intros H.
  apply bind_Ok in H. destruct H as (p1 & _ & H).
  apply bind_Ok in H. destruct H as (u & _ & H).
  injection H as <- <-. simpl. auto.
Qed.

Lemma TAbilityPromise_unauthorized (gt : bool) (GWorld : option UWorld)
    (addr : nat) (Target : UObject) (g : Statics) :
  bCalledFromActivate g = false ->
  exists msg, TAbilityPromise gt GWorld addr Target g = Fatal msg.
Proof.
  intros Hflag. unfold TAbilityPromise.
  destruct (FAbilityPromise gt GWorld addr Target g) as [[p g1]|msg] eqn:Hb;
    simpl; [|eauto].
  apply FAbilityPromise_flag in Hb. destruct Hb as (Hf & _).
  rewrite Hf, Hflag. simpl. eauto.
Qed.

(** C10.  The constructor of an ability promise fails its check when the
    flag is not set: whenever the base constructor went through, with the
    message of that check.  When the constructor goes through, the flag was
    set, it is reset, the target is notified with the flag already reset,
    and any further construction fails until the flag is set again.  With
    the flag set, on the game thread and with a world at hand, the
    constructor does go through. *)
Theorem C10_called_from_activate
    (gt : bool) (GWorld : option UWorld) (addr : nat) (Target : UObject)
    (g : Statics) :
  (bCalledFromActivate g = false ->
   exists msg, TAbilityPromise gt GWorld addr Target g = Fatal msg) /\
  (forall p g1,
      FAbilityPromise gt GWorld addr Target g = Ok (p, g1) ->
      bCalledFromActivate g = false ->
      TAbilityPromise gt GWorld addr Target g
      = Fatal "Do not call Execute coroutines directly!") /\
  (forall p g',
      TAbilityPromise gt GWorld addr Target g = Ok (p, g') ->
      bCalledFromActivate g = true /\
      bCalledFromActivate g' = false /\
      trace g' = trace g ++ [EvCoroutineStarting (obj_id Target) false] /\
      forall gt2 GWorld2 addr2 Target2,
        exists msg,
          TAbilityPromise gt2 GWorld2 addr2 Target2 g' = Fatal msg) /\
  (gt = true -> bCalledFromActivate g = true ->
   obj_world Target <> None \/ GWorld <> None ->
   exists p g', TAbilityPromise gt GWorld addr Target g = Ok (p, g')).
Proof.
  split; [apply TAbilityPromise_unauthorized|].
  split; [|split].
  - intros p g1 Hb Hflag. unfold TAbilityPromise. rewrite Hb. simpl.
    apply FAbilityPromise_flag in Hb. destruct Hb as (-> & _).
    rewrite Hflag. reflexivity.
  - intros p g' H. unfold TAbilityPromise in H.
    apply bind_Ok in H. destruct H as ([p1 g1] & Hb & H).
    apply FAbilityPromise_flag in Hb. destruct Hb as (Hf & Ht & _).
    apply bind_Ok in H. destruct H as (u & Hc & H). apply checkf_Ok in Hc.
    injection H as <- <-. simpl.
    split; [congruence|]. split; [reflexivity|].
    split; [rewrite Ht; reflexivity|].
    intros gt2 GWorld2 addr2 Target2.
    apply TAbilityPromise_unauthorized. reflexivity.
  - intros -> Hflag Hworld.
    unfold TAbilityPromise, FAbilityPromise, MakeLatentInfo,
      Latent.FLatentPromise_ctor. simpl.
    unfold Latent.Init_WorldContext, Latent.CreateLatentAction. simpl.
    destruct (obj_world Target) as [w|] eqn:Hw; simpl.
    + rewrite Hflag. simpl. eauto.
    + destruct GWorld as [gw|]; simpl.
      * rewrite Hflag. simpl. eauto.
      * destruct Hworld; congruence.
Qed.

End Authorization.

Example start_without_activation :
  TAbilityPromise true None 100 Examples.actor Examples.statics
  = Fatal "Do not call Execute coroutines directly!".
Proof. reflexivity. Qed.

Example one_start_per_activation :
  exists p g,
    TAbilityPromise true None 100 Examples.actor
      (authorize Examples.statics) = Ok (p, g) /\
    bCalledFromActivate g = false /\
    trace g = [EvCoroutineStarting 1 false] /\
    TAbilityPromise true None 101 Examples.actor g
    = Fatal "Do not call Execute coroutines directly!" /\
    exists p' g',
      TAbilityPromise true None 101 Examples.actor (authorize g)
      = Ok (p', g') /\
      DummyId g' = 2.
Proof.
  eexists. eexists. split; [reflexivity|].
  split; [reflexivity|]. split; [reflexivity|]. split; [reflexivity|].
  eexists. eexists. split; reflexivity.
Qed.

End AbilityProofs.

(** ** More on the latent promise *)

Module LatentExtras.
Import Latent.
Import LatentProofs.

Section Signature.


Lemma Pending_Init_WorldContext (wc : UObjectPtr) (p : FLatentPromise) :
  PendingLatentCoroutine (Init_WorldContext wc p) = PendingLatentCoroutine p.
Proof. unfold Init_WorldContext. destruct (World p), wc; reflexivity. Qed.





(** What [Init] creates when it creates the bridge. *)
Lemma Init_bridge (GWorld : option UWorld) (addr : nat) (Args : list Arg)
    (p p' : FLatentPromise) :
  Init GWorld addr Args p = Ok p' ->
  PendingLatentCoroutine p = None ->
  exists i,
    In (ArgLatentInfo i) Args /\
    PendingLatentCoroutine p'
    = Some {| self := addr; Promise := true; LatentInfo := i;
              CurrentAwaiter := None |}.
Proof.
  revert p. induction Args as [|a Args IH]; intros p H Hp; simpl in H.
  - rewrite Hp in H. discriminate.
  - destruct a as [wc|i|o|].
    + apply IH in H; [|rewrite Pending_Init_WorldContext; exact Hp].
      destruct H as (i & Hi & Hb). exists i. split; [right; exact Hi|exact Hb].
    + rewrite Hp in H. simpl in H. unfold CreateLatentAction in H.
      rewrite Hp in H. simpl in H.
      apply Init_Ok in H. simpl in H.
      destruct H as (_ & _ & _ & _ & _ & b & Hb & [Hsame|[Hnone _]]);
        [|discriminate].
      exists i. split; [left; reflexivity|].
      rewrite Hb. symmetry. exact Hsame.
    + apply IH in H; [|rewrite Pending_Init_WorldContext; exact Hp].
      destruct H as (i & Hi & Hb). exists i. split; [right; exact Hi|exact Hb].
    + apply IH in H; [|exact Hp].
      destruct H as (i & Hi & Hb). exists i. split; [right; exact Hi|exact Hb].
Qed.

(** X2.  A latent promise that the constructor has built is in its initial
    state (no flag set, not canceled, exit reason Normal, not complete), and
    its bridge is the one made from the latent info of the signature:
    pointing back to the promise, with no awaiter, at the given address. *)
Theorem X2_constructed_promise
    (GWorld : option UWorld) (addr : nat) (Args : list Arg)
    (p : FLatentPromise)
    (Hctor : FLatentPromise_ctor true GWorld addr Args = Ok p) :
  exists i,
    In (ArgLatentInfo i) Args /\
    PendingLatentCoroutine p
    = Some {| self := addr; Promise := true; LatentInfo := i;
              CurrentAwaiter := None |} /\
    LatentFlags p = 0 /\ ExitReason p = Normal /\ bCanceled p = false /\
    Extras_IsComplete p = false /\ World p <> None.
Proof.
  unfold FLatentPromise_ctor in Hctor. simpl in Hctor.
  destruct (Init_bridge _ _ _ _ _ Hctor eq_refl) as (i & Hi & Hb).
  apply Init_Ok in Hctor. simpl in Hctor.
  destruct Hctor as (Hf & He & Hc & Hx & Hw & _).
  exists i. repeat (split; [assumption|]).
  destruct (World p); [discriminate|discriminate].
Qed.

End Signature.

Lemma X2_witness :
  exists p,
    FLatentPromise_ctor true None 100
      [ArgObject Examples.actor; ArgLatentInfo Examples.info] = Ok p /\
    PendingLatentCoroutine p = Some Examples.bridge.
Proof.
  eexists. split; [reflexivity|].
  destruct (X2_constructed_promise None 100
              [ArgObject Examples.actor; ArgLatentInfo Examples.info]
              Examples.fresh eq_refl) as (i & _ & Hb & _).
  reflexivity.
Defined.

Section Attachment.
Context {LF : ELatentFlags}.

Lemma land_set_cleared (f : Z) :
  Z.land (Z.lor f LF_Detached) (Z.lnot LF_Detached)
  = Z.land f (Z.lnot LF_Detached).
Proof.
  rewrite Z.land_lor_distr_l, Z.land_lnot_diag. apply Z.lor_0_r.
Qed.

Lemma set_LatentFlags_same (p : FLatentPromise) :
  set_LatentFlags (LatentFlags p) p = p.
Proof. destruct p. reflexivity. Qed.

(** X3.  Detaching and attaching again brings an attached promise back to
    what it was, flags and all; detaching twice is detaching once; and
    neither of the two touches the InFinalSuspend flag.  Attaching is for
    the game thread only: elsewhere it is fatal. *)
Theorem X3_detach_attach_round_trip
    (p : FLatentPromise)
    (Hattached : has_flag (LatentFlags p) LF_Detached = false) :
  AttachToGameThread true (DetachFromGameThread p) = Ok p /\
  has_flag (LatentFlags (DetachFromGameThread p)) LF_Detached = true /\
  DetachFromGameThread (DetachFromGameThread p) = DetachFromGameThread p /\
  has_flag (LatentFlags (DetachFromGameThread p)) LF_InFinalSuspend
  = has_flag (LatentFlags p) LF_InFinalSuspend /\
  AttachToGameThread false (DetachFromGameThread p)
  = Fatal "Internal error: attaching to the GT while not on the GT".
Proof.
  split; [|split; [|split; [|split]]].
  - unfold AttachToGameThread, DetachFromGameThread. simpl.
    rewrite land_set_cleared, (cleared_id _ Hattached).
    destruct p. reflexivity.
  - simpl. apply has_flag_set.
  - unfold DetachFromGameThread. simpl.
    rewrite <- Z.lor_assoc, Z.lor_diag. reflexivity.
  - simpl. apply has_flag_set_other.
  - reflexivity.
Qed.

End Attachment.

Lemma X3_witness :
  has_flag (LatentFlags Examples.fresh) LF_Detached = false /\
  AttachToGameThread true (DetachFromGameThread Examples.fresh)
  = Ok Examples.fresh.
Proof.
  split; [reflexivity|].
  apply (X3_detach_attach_round_trip Examples.fresh). reflexivity.
Defined.

Section Awaiter.
Context {LF : ELatentFlags}.

(** X4.  A latent awaiter can be installed only on the game thread and only
    while no flag of the promise is set: for a detached promise, and for one
    in final suspend, SetCurrentAwaiter is fatal.  When it goes through, the
    bridge holds the new awaiter, the rest of the promise is untouched, and
    a double await (a new awaiter over one that is still there) is reported
    but not refused. *)
Theorem X4_SetCurrentAwaiter
    (gt : bool) (Awaiter : option FLatentAwaiter) (p : FLatentPromise) :
  (has_flag (LatentFlags p) LF_Detached = true \/
   has_flag (LatentFlags p) LF_InFinalSuspend = true ->
   exists msg, SetCurrentAwaiter gt Awaiter p = Fatal msg) /\
  (gt = false ->
   SetCurrentAwaiter gt Awaiter p
   = Fatal "Latent awaiters may only be used on the game thread") /\
  (forall p' evs,
      SetCurrentAwaiter gt Awaiter p = Ok (p', evs) ->
      gt = true /\ LatentFlags p = 0 /\
      exists b,
        PendingLatentCoroutine p = Some b /\
        p' = set_Pending (Some (set_CurrentAwaiter Awaiter b)) p /\
        evs = match Awaiter, CurrentAwaiter b with
              | Some _, Some _ => [EvEnsure "Unexpected double await"]
              | _, _ => []
              end) /\
  (forall b,
      gt = true -> LatentFlags p = 0 -> PendingLatentCoroutine p = Some b ->
      exists evs,
        SetCurrentAwaiter gt Awaiter p
        = Ok (set_Pending (Some (set_CurrentAwaiter Awaiter b)) p, evs)).
Proof.
  split; [|split; [|split]].
  - intros Hflag. unfold SetCurrentAwaiter.
    destruct gt; simpl; [|eauto].
    assert ((LatentFlags p =? 0) = false) as ->.
    { destruct Hflag as [H|H]; apply (has_flag_nonzero _ _ H). }
    simpl. eauto.
  - intros ->. reflexivity.
  - intros p' evs H. unfold SetCurrentAwaiter, Pending_SetCurrentAwaiter,
      deref_Pending in H.
    destruct gt; simpl in H; [|discriminate].
    destruct (LatentFlags p =? 0) eqn:Hz; simpl in H; [|discriminate].
    apply Z.eqb_eq in Hz.
    destruct (PendingLatentCoroutine p) as [b|] eqn:Hb; simpl in H;
      [|discriminate].
    injection H as <- <-.
    split; [reflexivity|]. split; [exact Hz|].
    exists b. auto.
  - intros b -> Hz Hb. unfold SetCurrentAwaiter, Pending_SetCurrentAwaiter,
      deref_Pending. simpl. rewrite Hz, Hb. simpl. eauto.
Qed.

End Awaiter.

Section Inert.
Context {LF : ELatentFlags}.

(** X5.  A bridge whose back-pointer is null never reaches the promise
    again: its tick only reports that the action is done, the two
    notifications and its destructor do nothing at all, and a second Detach
    is fatal. *)
Theorem X5_detached_bridge_is_inert
    (s : Sys) (b : FPendingLatentCoroutine)
    (Hb : PendingLatentCoroutine (promise s) = Some b)
    (Hnull : Promise b = false) :
  (forall Response,
      UpdateOperation true s Response = Ok (s, DoneIf true Response)) /\
  NotifyActionAborted true s = Ok s /\
  NotifyObjectDestroyed true s = Ok s /\
  Pending_dtor true s = Ok s /\
  Pending_Detach b = Fatal "Internal error: unexpected double Detach".
Proof.
  unfold UpdateOperation, NotifyActionAborted, NotifyObjectDestroyed,
    Pending_dtor, Pending_Detach, deref_Pending.
  simpl. rewrite Hb. simpl. rewrite Hnull. simpl.
  repeat split; reflexivity.
Qed.

(** X6.  When the frame is destroyed while an exception is in flight, the
    promise's destructor detaches the bridge: the frame is unwound and the
    completion signalled as usual, and the bridge that the action manager
    still owns is left with a null back-pointer, so that its destructor
    afterwards does not cancel, resume or destroy anything, and its tick
    only reports the action done. *)
Theorem X6_destroyed_by_exception
    (s : Sys) (b : FPendingLatentCoroutine)
    (Hb : PendingLatentCoroutine (promise s) = Some b)
    (Hlive : Promise b = true)
    (Hexc : uncaught_exceptions s = true) :
  exists s',
    Handle_destroy true s = Ok s' /\
    PendingLatentCoroutine (promise s') = Some (set_Promise false b) /\
    trace s' = trace s ++ [EvLocalsDestroyed (GLatentExitReason s);
                           EvCompleted] /\
    GLatentExitReason s' = Normal /\
    Extras_IsComplete (promise s') = true /\
    Pending_dtor true s' = Ok s' /\
    (forall Response,
        UpdateOperation true s' Response = Ok (s', DoneIf true Response)).
Proof.
  unfold Handle_destroy, FLatentPromise_dtor, deref_Pending, Pending_Detach.
  simpl. rewrite Hexc. simpl. rewrite Hb. simpl. rewrite Hlive. simpl.
  eexists. split; [reflexivity|]. simpl.
  split; [reflexivity|].
  split; [rewrite <- app_assoc; reflexivity|].
  split; [reflexivity|]. split; [reflexivity|].
  split; reflexivity.
Qed.

End Inert.

Section Repost.

Lemma set_GameThreadTasks_same (s : Sys) :
  set_GameThreadTasks (GameThreadTasks s) s = s.
Proof. destruct s. reflexivity. Qed.

(** X7.  ThreadSafeDestroy called off the game thread, followed by the game
    thread running the task it posted, comes to the same as ThreadSafeDestroy
    called on the game thread: the same frame destruction, the same final
    state, or the same failed check. *)
Theorem X7_reposted_destroy
    (s : Sys)
    (Hidle : GameThreadTasks s = []) :
  (s1 <- ThreadSafeDestroy false s ;; run_GameThreadTask s1)
  = ThreadSafeDestroy true s /\
  (forall s1, ThreadSafeDestroy false s = Ok s1 ->
              promise s1 = promise s /\ trace s1 = trace s /\
              GLatentExitReason s1 = GLatentExitReason s /\
              GameThreadTasks s1 = [TaskThreadSafeDestroy]).
Proof.
  split.
  - unfold ThreadSafeDestroy at 1. simpl.
    unfold run_GameThreadTask. simpl. rewrite Hidle. simpl.
    rewrite <- Hidle.
    replace (set_GameThreadTasks (GameThreadTasks s)
               (post TaskThreadSafeDestroy s)) with s
      by (destruct s; simpl in *; subst; reflexivity).
    reflexivity.
  - intros s1 H. injection H as <-. simpl. rewrite Hidle. auto.
Qed.

End Repost.

Lemma X7_witness :
  GameThreadTasks (Examples.sys_of Examples.fresh [AwaitAsync]) = [] /\
  (s1 <- ThreadSafeDestroy false
           (Examples.sys_of Examples.fresh [AwaitAsync]) ;;
   run_GameThreadTask s1)
  = Ok (Examples.sys_of' [EvLocalsDestroyed Normal; EvCompleted]
          (set_Complete true Examples.fresh)).
Proof.
  split; [reflexivity|].
  rewrite (proj1 (X7_reposted_destroy
                    (Examples.sys_of Examples.fresh [AwaitAsync]) eq_refl)).
  reflexivity.
Defined.

Section Finished.
Context {LF : ELatentFlags}.

(** X15.  Once final_suspend has run, a tick's response does not depend on
    what went before: whether the promise was detached or canceled, the
    action is marked done and the link of the latent info is triggered,
    once. *)
Theorem X15_Respond_after_final_suspend
    (p : FLatentPromise) (Response : FLatentResponse)
    (Info : FLatentActionInfo)
    (Halive : Extras_IsComplete p = false) :
  Respond true (final_suspend p) Response Info
  = Ok (TriggerLink (ExecutionFunction Info) (Linkage Info)
                    (CallbackTarget Info) (DoneIf true Response)).
Proof.
  unfold Respond. simpl. rewrite Halive. simpl.
  rewrite has_flag_final_InFinalSuspend, orb_true_r. reflexivity.
Qed.

End Finished.

Lemma X15_witness :
  Respond true (final_suspend (Cancel (DetachFromGameThread Examples.fresh)))
          NoResponse Examples.info
  = Ok {| bRemoveAction := true;
          LinksToExecute := [("Continue"%string, 3, Some Examples.actor)] |}.
Proof.
  apply (X15_Respond_after_final_suspend
           (Cancel (DetachFromGameThread Examples.fresh))).
  reflexivity.
Defined.


Section Lifecycle.
Context {LF : ELatentFlags}.

Lemma has_flag_0 (m : Z) : has_flag 0 m = false.
Proof. reflexivity. Qed.

Lemma tick_waits (s : Sys) (b : FPendingLatentCoroutine)
    (a : FLatentAwaiter) (Response : FLatentResponse) :
  polling s b a -> ShouldResume a = false ->
  UpdateOperation true s Response = Ok (s, Response).
Proof.
  intros (Hf & Hc & He & Hb & HP & HA) Hr.
  unfold UpdateOperation, deref_Pending, Respond. simpl.
  rewrite Hb. simpl. rewrite HP, HA, Hr. simpl.
  rewrite He, Hc, Hf. reflexivity.
Qed.

Lemma tick_resumes (s : Sys) (b : FPendingLatentCoroutine)
    (a a' : FLatentAwaiter) (k : list Suspension) :
  polling s b a -> ShouldResume a = true -> body s = AwaitLatent a' :: k ->
  exists s',
    UpdateOperation true s NoResponse = Ok (s', NoResponse) /\
    polling s' (set_CurrentAwaiter (Some a') b) a' /\
    body s' = k /\
    resumptions (trace s') = S (resumptions (trace s)).
Proof.
  intros (Hf & Hc & He & Hb & HP & HA) Hr Hbody.
  unfold UpdateOperation, deref_Pending. simpl.
  rewrite Hb. simpl. rewrite HP, HA, Hr. simpl.
  unfold Resume. simpl. rewrite Hf. simpl.
  unfold FPromise_Resume. simpl. rewrite He, Hc. simpl.
  unfold resume_body. simpl. rewrite Hbody.
  unfold SetCurrentAwaiter, Pending_SetCurrentAwaiter, deref_Pending.
  simpl. rewrite Hf. simpl.
  unfold Respond. simpl. rewrite He, Hc, Hf. simpl.
  eexists. split; [reflexivity|]. simpl.
  split; [repeat split; assumption|].
  split; [reflexivity|].
  unfold resumptions. rewrite filter_app, length_app. simpl. lia.
Qed.

Lemma tick_finishes (s : Sys) (b : FPendingLatentCoroutine)
    (a : FLatentAwaiter) :
  polling s b a -> ShouldResume a = true -> body s = [] ->
  exists s',
    UpdateOperation true s NoResponse = Ok (s', finished (LatentInfo b)) /\
    LatentFlags (promise s') = LF_InFinalSuspend /\
    Extras_IsComplete (promise s') = false /\
    body s' = [] /\
    resumptions (trace s') = S (resumptions (trace s)).
Proof.
  intros (Hf & Hc & He & Hb & HP & HA) Hr Hbody.
  unfold UpdateOperation, deref_Pending. simpl.
  rewrite Hb. simpl. rewrite HP, HA, Hr. simpl.
  unfold Resume. simpl. rewrite Hf. simpl.
  unfold FPromise_Resume. simpl. rewrite He, Hc. simpl.
  unfold resume_body. simpl. rewrite Hbody, Hf. simpl.
  unfold Respond. simpl. rewrite He, Hc. simpl.
  rewrite has_flag_final_InFinalSuspend. simpl.
  eexists. split; [reflexivity|]. simpl.
  split; [reflexivity|]. split; [exact He|]. split; [exact Hbody|].
  unfold resumptions. rewrite filter_app, length_app. simpl. lia.
Qed.

Lemma ticks_to_the_end (awaiters : list FLatentAwaiter) (s : Sys)
    (b : FPendingLatentCoroutine) (a : FLatentAwaiter) :
  polling s b a -> ShouldResume a = true ->
  Forall (fun a => ShouldResume a = true) awaiters ->
  body s = map AwaitLatent awaiters ->
  exists s',
    requests (repeat ReqTick (S (length awaiters))) s
    = Ok (s', repeat NoResponse (length awaiters)
              ++ [finished (LatentInfo b)]) /\
    LatentFlags (promise s') = LF_InFinalSuspend /\
    Extras_IsComplete (promise s') = false /\
    body s' = [] /\
    resumptions (trace s')
    = (resumptions (trace s) + S (length awaiters))%nat.
Proof.
  revert s b a. induction awaiters as [|a' awaiters IH];
    intros s b a Hp Hr Hall Hbody.
  - destruct (tick_finishes s b a Hp Hr Hbody)
      as (s' & Ht & Hf & Hc & Hb & Hn).
    exists s'. simpl. rewrite Ht. simpl.
    repeat (split; [assumption || reflexivity|]). lia.
  - inversion Hall as [|? ? Hr' Hall']; subst.
    destruct (tick_resumes s b a a' _ Hp Hr Hbody)
      as (s1 & Ht & Hp1 & Hb1 & Hn1).
    destruct (IH s1 _ a' Hp1 Hr' Hall' Hb1)
      as (s' & Hts & Hf & Hc & Hb' & Hn).
    exists s'.
    change (repeat ReqTick (S (length (a' :: awaiters))))
      with (ReqTick :: repeat ReqTick (S (length awaiters))).
    simpl requests. simpl request. rewrite Ht. simpl.
    simpl in Hts. rewrite Hts. simpl.
    repeat (split; [assumption || reflexivity|]). lia.
Qed.


Lemma start_fresh (s : Sys) (b : FPendingLatentCoroutine) (w : UWorld) :
  LatentFlags (promise s) = 0 -> bCanceled (promise s) = false ->
  Extras_IsComplete (promise s) = false -> World (promise s) = Some w ->
  PendingLatentCoroutine (promise s) = Some b ->
  Promise b = true -> CurrentAwaiter b = None ->
  FindExistingAction (LAM s) (CallbackTarget (LatentInfo b))
                     (UUID (LatentInfo b)) = None ->
  IsValid (CallbackTarget (LatentInfo b)) = true ->
  exists s',
    start true s = Ok s' /\
    LAM s' = AddNewAction (LAM s) (CallbackTarget (LatentInfo b))
                          (UUID (LatentInfo b)) (self b) /\
    resumptions (trace s') = S (resumptions (trace s)) /\
    Extras_IsComplete (promise s') = false /\
    match body s with
    | [] => LatentFlags (promise s') = LF_InFinalSuspend /\
            bCanceled (promise s') = false /\
            PendingLatentCoroutine (promise s') = Some b /\ body s' = []
    | AwaitLatent a :: k =>
        polling s' (set_CurrentAwaiter (Some a) b) a /\ body s' = k
    | AwaitAsync :: k =>
        has_flag (LatentFlags (promise s')) LF_Detached = true /\
        body s' = k
    end.
Proof.
  intros Hf Hc He Hw Hb HP HA Hnew Hvalid.
  unfold start, initial_suspend, deref_Pending. simpl.
  rewrite Hw, Hb. simpl. rewrite Hnew, Hvalid. simpl.
  unfold Resume. simpl. rewrite Hf. simpl.
  unfold FPromise_Resume. simpl. rewrite He, Hc. simpl.
  unfold resume_body. simpl.
  destruct (body s) as [|[a|] k] eqn:Hbody; simpl.
  - rewrite Hf. simpl. eexists. split; [reflexivity|]. simpl.
    split; [reflexivity|].
    split; [unfold resumptions; rewrite filter_app, length_app; simpl; lia|].
    auto.
  - unfold SetCurrentAwaiter, Pending_SetCurrentAwaiter, deref_Pending.
    simpl. rewrite Hf, Hb. simpl. rewrite HA. simpl.
    eexists. split; [reflexivity|]. simpl.
    split; [reflexivity|].
    split; [unfold resumptions; rewrite filter_app, length_app; simpl; lia|].
    split; [exact He|].
    split; [|reflexivity]. repeat split; assumption.
  - eexists. split; [reflexivity|]. simpl.
    split; [reflexivity|].
    split; [unfold resumptions; rewrite filter_app, length_app; simpl; lia|].
    split; [exact He|]. split; [apply has_flag_set|reflexivity].
Qed.

Lemma start_duplicate (s : Sys) (b : FPendingLatentCoroutine) (w : UWorld)
    (dup : nat) :
  World (promise s) = Some w ->
  PendingLatentCoroutine (promise s) = Some b -> Promise b = true ->
  FindExistingAction (LAM s) (CallbackTarget (LatentInfo b))
                     (UUID (LatentInfo b)) = Some dup ->
  exists s',
    start true s = Ok s' /\
    LAM s' = LAM s /\
    resumptions (trace s') = resumptions (trace s) /\
    Extras_IsComplete (promise s') = true.
Proof.
  intros Hw Hb HP Hdup.
  unfold start, initial_suspend, deref_Pending. simpl.
  rewrite Hw, Hb. simpl. rewrite Hdup. simpl.
  unfold Handle_destroy, FLatentPromise_dtor, deref_Pending, Pending_Detach.
  simpl. destruct (uncaught_exceptions s); simpl.
  - rewrite Hb. simpl. rewrite HP. simpl.
    eexists. split; [reflexivity|]. simpl. split; [reflexivity|].
    split; [|reflexivity].
    unfold resumptions. rewrite !filter_app, !length_app. simpl. lia.
  - eexists. split; [reflexivity|]. simpl. split; [reflexivity|].
    split; [|reflexivity].
    unfold resumptions. rewrite !filter_app, !length_app. simpl. lia.
Qed.

Lemma FindExistingAction_same (lam : list (UObjectPtr * Z * nat))
    (Target Target' : UObjectPtr) (Id : Z) (Action : nat) :
  same_object Target Target' = true ->
  exists found,
    FindExistingAction (AddNewAction lam Target Id Action) Target' Id
    = Some found.
Proof.
  intros Hsame. unfold FindExistingAction, AddNewAction.
  induction lam as [|e lam IH]; simpl.
  - rewrite Hsame, Z.eqb_refl. simpl. eauto.
  - destruct (same_object (fst (fst e)) Target' && (snd (fst e) =? Id));
      [eauto|exact IH].
Qed.

Lemma FindExistingAction_other (lam : list (UObjectPtr * Z * nat))
    (Target Target' : UObjectPtr) (Id Id' : Z) (Action : nat) :
  same_object Target Target' && (Id =? Id') = false ->
  FindExistingAction (AddNewAction lam Target Id Action) Target' Id'
  = FindExistingAction lam Target' Id'.
Proof.
  intros Hother. unfold FindExistingAction, AddNewAction.
  induction lam as [|e lam IH]; simpl.
  - rewrite Hother. reflexivity.
  - destruct (same_object (fst (fst e)) Target' && (snd (fst e) =? Id'));
      [reflexivity|exact IH].
Qed.

(** X8.  Two latent coroutines of one world, started one after the other
    on the game thread.  When their latent infos have the same callback
    target and the same UUID, the first is registered and runs, and the
    second is destroyed without running and leaves the action manager as
    the first left it.  When the target or the UUID differ (and nothing is
    registered under the second pair, whose target is valid), both are
    registered and both run. *)
Theorem X8_second_start
    (GWorld1 GWorld2 : option UWorld) (addr1 addr2 : nat)
    (Args1 Args2 : list Arg) (s1 s2 : Sys)
    (b1 b2 : FPendingLatentCoroutine)
    (Hctor1 : FLatentPromise_ctor true GWorld1 addr1 Args1 = Ok (promise s1))
    (Hctor2 : FLatentPromise_ctor true GWorld2 addr2 Args2 = Ok (promise s2))
    (Hb1 : PendingLatentCoroutine (promise s1) = Some b1)
    (Hb2 : PendingLatentCoroutine (promise s2) = Some b2)
    (Hnew : FindExistingAction (LAM s1) (CallbackTarget (LatentInfo b1))
                               (UUID (LatentInfo b1)) = None)
    (Hvalid : IsValid (CallbackTarget (LatentInfo b1)) = true) :
  exists s1',
    start true s1 = Ok s1' /\
    LAM s1' = AddNewAction (LAM s1) (CallbackTarget (LatentInfo b1))
                           (UUID (LatentInfo b1)) (self b1) /\
    resumptions (trace s1') = S (resumptions (trace s1)) /\
    Extras_IsComplete (promise s1') = false /\
    (same_object (CallbackTarget (LatentInfo b1))
                 (CallbackTarget (LatentInfo b2)) = true ->
     UUID (LatentInfo b1) = UUID (LatentInfo b2) ->
     exists s2',
       start true (set_LAM (LAM s1') s2) = Ok s2' /\
       LAM s2' = LAM s1' /\
       resumptions (trace s2') = resumptions (trace s2) /\
       Extras_IsComplete (promise s2') = true) /\
    (same_object (CallbackTarget (LatentInfo b1))
                 (CallbackTarget (LatentInfo b2))
     && (UUID (LatentInfo b1) =? UUID (LatentInfo b2)) = false ->
     FindExistingAction (LAM s1) (CallbackTarget (LatentInfo b2))
                        (UUID (LatentInfo b2)) = None ->
     IsValid (CallbackTarget (LatentInfo b2)) = true ->
     exists s2',
       start true (set_LAM (LAM s1') s2) = Ok s2' /\
       LAM s2' = AddNewAction (LAM s1') (CallbackTarget (LatentInfo b2))
                              (UUID (LatentInfo b2)) (self b2) /\
       resumptions (trace s2') = S (resumptions (trace s2)) /\
       Extras_IsComplete (promise s2') = false).
Proof.
  apply FLatentPromise_ctor_Ok in Hctor1, Hctor2.
  destruct Hctor1 as (Hf1 & Hc1 & He1 & (w1 & Hw1) & b1' & Hb1' & _ & HP1 & HA1).
  destruct Hctor2 as (Hf2 & Hc2 & He2 & (w2 & Hw2) & b2' & Hb2' & _ & HP2 & HA2).
  rewrite Hb1 in Hb1'. injection Hb1' as <-.
  rewrite Hb2 in Hb2'. injection Hb2' as <-.
  destruct (start_fresh s1 b1 w1 Hf1 Hc1 He1 Hw1 Hb1 HP1 HA1 Hnew Hvalid)
    as (s1' & Hs1 & Hl1 & Hn1 & Hx1 & _).
  exists s1'. repeat (split; [assumption|]). split.
  - intros Hsame Hid.
    destruct (FindExistingAction_same (LAM s1) _ _ (UUID (LatentInfo b1))
                (self b1) Hsame) as (found & Hfound).
    rewrite Hid in Hfound at 2.
    destruct (start_duplicate (set_LAM (LAM s1') s2) b2 w2 found)
      as (s2' & Hs2 & Hl2 & Hn2 & Hx2); try assumption.
    { simpl. rewrite Hl1. exact Hfound. }
    exists s2'. auto.
  - intros Hother Hnew2 Hvalid2.
    destruct (start_fresh (set_LAM (LAM s1') s2) b2 w2)
      as (s2' & Hs2 & Hl2 & Hn2 & Hx2 & _); try assumption.
    { simpl. rewrite Hl1, FindExistingAction_other; assumption. }
    exists s2'. auto.
Qed.

(** X9.  A coroutine whose body awaits latent awaiters only, each ready when
    polled, started on a valid target with nothing registered under its
    pair.  With no await at all the body reaches final_suspend within the
    start, and the first tick reports the action done and triggers the
    link.  With n awaits, the start and then n ticks resume the body n + 1
    times; the first n - 1 ticks answer with an untouched response, and the
    n-th finds the coroutine in final suspend, marks the action done and
    triggers the link.  A tick that finds its awaiter not ready changes
    nothing. *)
Theorem X9_runs_to_completion
    (GWorld : option UWorld) (addr : nat) (Args : list Arg) (s : Sys)
    (b : FPendingLatentCoroutine)
    (Hctor : FLatentPromise_ctor true GWorld addr Args = Ok (promise s))
    (Hb : PendingLatentCoroutine (promise s) = Some b)
    (Hnew : FindExistingAction (LAM s) (CallbackTarget (LatentInfo b))
                               (UUID (LatentInfo b)) = None)
    (Hvalid : IsValid (CallbackTarget (LatentInfo b)) = true) :
  (body s = [] ->
   exists s0 s',
     start true s = Ok s0 /\
     LatentFlags (promise s0) = LF_InFinalSuspend /\
     UpdateOperation true s0 NoResponse = Ok (s', finished (LatentInfo b)) /\
     resumptions (trace s') = S (resumptions (trace s))) /\
  (forall a awaiters,
      body s = map AwaitLatent (a :: awaiters) ->
      Forall (fun a => ShouldResume a = true) (a :: awaiters) ->
      exists s0 s',
        start true s = Ok s0 /\
        requests (repeat ReqTick (S (length awaiters))) s0
        = Ok (s', repeat NoResponse (length awaiters)
                  ++ [finished (LatentInfo b)]) /\
        LatentFlags (promise s') = LF_InFinalSuspend /\
        resumptions (trace s')
        = (resumptions (trace s) + length awaiters + 2)%nat) /\
  (forall s1 b1 a1 Response,
      polling s1 b1 a1 -> ShouldResume a1 = false ->
      UpdateOperation true s1 Response = Ok (s1, Response)).
Proof.
  apply FLatentPromise_ctor_Ok in Hctor.
  destruct Hctor as (Hf & Hc & He & (w & Hw) & b' & Hb' & _ & HP & HA).
  rewrite Hb in Hb'. injection Hb' as <-.
  destruct (start_fresh s b w Hf Hc He Hw Hb HP HA Hnew Hvalid)
    as (s0 & Hs0 & _ & Hn0 & Hx0 & Hbody0).
  split; [|split].
  - intros Hbody. rewrite Hbody in Hbody0.
    destruct Hbody0 as (Hf0 & Hc0 & Hb0 & Hk0).
    exists s0. eexists.
    split; [exact Hs0|]. split; [exact Hf0|].
    unfold UpdateOperation, deref_Pending, Respond. simpl.
    rewrite Hb0. simpl. rewrite HP, HA. simpl.
    rewrite Hx0, Hf0, Hc0. simpl.
    rewrite has_flag_final_InFinalSuspend. simpl.
    split; [reflexivity|exact Hn0].
  - intros a awaiters Hbody Hall. simpl in Hbody. rewrite Hbody in Hbody0.
    destruct Hbody0 as (Hp0 & Hk0).
    inversion Hall as [|? ? Hr Hall']; subst.
    destruct (ticks_to_the_end awaiters s0 _ a Hp0 Hr Hall' Hk0)
      as (s' & Ht & Hf' & _ & _ & Hn').
    exists s0, s'. split; [exact Hs0|]. split; [exact Ht|].
    split; [exact Hf'|]. lia.
  - intros s1 b1 a1 Response. apply tick_waits.
Qed.

End Lifecycle.

Section ExitReasons.
Context {LF : ELatentFlags}.

(** A resume of a canceled coroutine that is not held back destroys it. *)
Lemma Resume_destroys (bypass : bool) (t : Sys)
    (b : FPendingLatentCoroutine) :
  bCanceled (promise t) = true ->
  Extras_IsComplete (promise t) = false ->
  PendingLatentCoroutine (promise t) = Some b -> Promise b = true ->
  bypass && has_flag (LatentFlags (promise t)) LF_Detached = false ->
  exists t',
    Resume true bypass t = Ok t' /\
    trace t' = trace t ++ [EvLocalsDestroyed (ExitReason (promise t));
                           EvCompleted] /\
    ExitReason (promise t') = ExitReason (promise t) /\
    GLatentExitReason t' = Normal /\
    Extras_IsComplete (promise t') = true.
Proof.
  intros Hc He Hb HP Hfree.
  unfold Resume. rewrite Hc. simpl.
  assert (Hborrowed :
    (if bypass
     then Ok (has_flag (LatentFlags (promise t)) LF_Detached)
     else Ok false)
    = (Ok false : result bool)).
  { destruct bypass; [|reflexivity]. simpl in Hfree. rewrite Hfree.
    reflexivity. }
  rewrite Hborrowed. simpl. rewrite andb_true_r.
  destruct (has_flag (LatentFlags (promise t)) LF_Detached); simpl;
    unfold FPromise_Resume; simpl; rewrite He, Hc; simpl;
    unfold ThreadSafeDestroy, Handle_destroy, FLatentPromise_dtor,
      deref_Pending, Pending_Detach; simpl;
    destruct (uncaught_exceptions t); simpl;
    rewrite ?Hb; simpl; rewrite ?HP; simpl;
    (eexists; split; [reflexivity|]; simpl;
     rewrite <- app_assoc; repeat split; reflexivity).
Qed.

(** X14.  How an exit reason gets to the frame.  For an attached, live
    coroutine whose exit reason is still Normal: when the action manager
    notifies the bridge (action aborted, or object destroyed) and then
    destroys it, the coroutine is destroyed in the bridge's destructor, and
    the locals of its frame are unwound with that reason in the global,
    which is Normal again afterwards; without a notification they see
    Normal.  When the coroutine is detached at that time the destruction
    waits, and the resume that reattaches it unwinds the frame with the same
    recorded reason. *)
Theorem X14_exit_reason_reaches_the_frame
    (s : Sys) (b : FPendingLatentCoroutine)
    (Halive : Extras_IsComplete (promise s) = false)
    (Hb : PendingLatentCoroutine (promise s) = Some b)
    (Hlive : Promise b = true)
    (Hnormal : ExitReason (promise s) = Normal)
    (r : ELatentExitReason) :
    exists s1,
      notify r s = Ok s1 /\
      ExitReason (promise s1) = r /\
      (has_flag (LatentFlags (promise s)) LF_Detached = false ->
       exists s',
         Pending_dtor true s1 = Ok s' /\
         trace s' = trace s ++ [EvLocalsDestroyed r; EvCompleted] /\
         GLatentExitReason s' = Normal /\
         Extras_IsComplete (promise s') = true) /\
      (has_flag (LatentFlags (promise s)) LF_Detached = true ->
       exists s2 s',
         Pending_dtor true s1 = Ok s2 /\
         trace s2 = trace s /\
         Extras_IsComplete (promise s2) = false /\
         Resume true false s2 = Ok s' /\
         trace s' = trace s ++ [EvLocalsDestroyed r; EvCompleted] /\
         GLatentExitReason s' = Normal /\
         Extras_IsComplete (promise s') = true).
Proof.
  assert (Hs1 : exists s1,
             notify r s = Ok s1 /\ ExitReason (promise s1) = r /\
             trace s1 = trace s /\
             LatentFlags (promise s1) = LatentFlags (promise s) /\
             Extras_IsComplete (promise s1) = false /\
             PendingLatentCoroutine (promise s1) = Some b).
  { unfold notify. destruct r; simpl.
    - exists s. auto 10.
    - unfold NotifyActionAborted, deref_Pending. simpl.
      rewrite Hb. simpl. rewrite Hlive.
      rewrite (SetExitReason_Normal _ _ Hnormal). simpl.
      eexists. split; [reflexivity|]. simpl. auto 10.
    - unfold NotifyObjectDestroyed, deref_Pending. simpl.
      rewrite Hb. simpl. rewrite Hlive.
      rewrite (SetExitReason_Normal _ _ Hnormal). simpl.
      eexists. split; [reflexivity|]. simpl. auto 10. }
  destruct Hs1 as (s1 & Hn & Hr & Ht & Hf & Hx & Hb1).
  exists s1. split; [exact Hn|]. split; [exact Hr|]. split.
  - intros Hatt.
    destruct (Resume_destroys true (with_promise Cancel s1) b)
      as (s' & HR & Ht' & _ & Hg & Hc); simpl; try assumption;
      try reflexivity.
    { rewrite Hf, Hatt. reflexivity. }
    exists s'. unfold Pending_dtor, deref_Pending. simpl.
    rewrite Hb1. simpl. rewrite Hlive.
    split; [exact HR|]. simpl in Ht'. rewrite Ht', Ht, Hr. auto.
  - intros Hdet.
    exists (with_promise Cancel s1).
    destruct (Resume_destroys false (with_promise Cancel s1) b)
      as (s' & HR & Ht' & _ & Hg & Hc); simpl; try assumption;
      try reflexivity.
    exists s'. unfold Pending_dtor, deref_Pending. simpl.
    rewrite Hb1. simpl. rewrite Hlive.
    split.
    { unfold Resume. simpl. rewrite Hf, Hdet. reflexivity. }
    split; [exact Ht|]. split; [exact Hx|]. split; [exact HR|].
    simpl in Ht'. rewrite Ht', Ht, Hr. auto.
Qed.

End ExitReasons.

Section Monotone.
Context {LF : ELatentFlags}.

Ltac lasting_tac :=
  solve [ unfold lasting; simpl; repeat split; auto;
          intros;
          repeat match goal with
                 | H : ELatentExitReason_eqb _ _ = true |- _ =>
                     apply ELatentExitReason_eqb_eq in H
                 end;
          congruence ].

Lemma lasting_refl (s : Sys) : lasting s s.
Proof. unfold lasting. auto. Qed.

Lemma lasting_trans (s1 s2 s3 : Sys) :
  lasting s1 s2 -> lasting s2 s3 -> lasting s1 s3.
Proof.
  unfold lasting. intros (A1 & B1 & C1) (A2 & B2 & C2).
  split; [auto|]. split; [auto|].
  intros H. rewrite <- (C1 H). apply C2. rewrite (C1 H). exact H.
Qed.

Lemma lasting_logs (evs : list Event) (s : Sys) :
  lasting s (fold_left (fun s e => log e s) evs s).
Proof.
  revert s. induction evs as [|e evs IH]; intros s; simpl.
  - apply lasting_refl.
  - apply (lasting_trans _ (log e s)); [|apply IH].
    unfold lasting; simpl; auto.
Qed.

Lemma Handle_destroy_lasting (gt : bool) (s s' : Sys) :
  Handle_destroy gt s = Ok s' -> lasting s s'.
Proof.
  unfold Handle_destroy, FLatentPromise_dtor, FPromise_dtor, deref_Pending,
    Pending_Detach.
  intros H. inv_ok; unfold lasting; simpl; auto.
Qed.

Lemma ThreadSafeDestroy_lasting (gt : bool) (s s' : Sys) :
  ThreadSafeDestroy gt s = Ok s' -> lasting s s'.
Proof.
  unfold ThreadSafeDestroy. intros H. inv_ok.
  - lasting_tac.
  - match goal with H : Handle_destroy _ _ = _ |- _ =>
      apply Handle_destroy_lasting in H end.
    exact H.
Qed.

Lemma resume_body_lasting (gt : bool) (s s' : Sys) :
  resume_body gt s = Ok s' -> lasting s s'.
Proof.
  unfold resume_body, SetCurrentAwaiter, Pending_SetCurrentAwaiter,
    deref_Pending. simpl.
  intros H. inv_ok; try (unfold lasting; simpl; auto; fail).
  eapply lasting_trans; [|apply lasting_logs].
  unfold lasting; simpl; auto.
Qed.

Lemma Resume_lasting (gt b : bool) (s s' : Sys) :
  Resume gt b s = Ok s' -> lasting s s'.
Proof.
  intros H. unfold Resume in H.
  apply bind_Ok in H. destruct H as (borrowed & _ & H).
  destruct borrowed; [injection H as <-; apply lasting_refl|].
  apply bind_Ok in H. destruct H as (s1 & H1 & H).
  assert (lasting s s1) as H01.
  { unfold AttachToGameThread in H1. inv_ok; lasting_tac. }
  apply (lasting_trans _ _ _ H01).
  unfold FPromise_Resume in H.
  apply bind_Ok in H. destruct H as (u & _ & H).
  destruct (bCanceled (promise s1)).
  - apply (ThreadSafeDestroy_lasting _ _ _ H).
  - apply (resume_body_lasting _ _ _ H).
Qed.

(** X16.  Whatever operations of the promise and of its bridge follow one
    another, on whichever threads: a cancellation is never taken back, a
    completed promise never becomes incomplete, and an exit reason other
    than Normal, once recorded, is never changed. *)
Theorem X16_nothing_is_taken_back
    (ops : list (bool * Operation)) (s s' : Sys)
    (Hrun : exec_all ops s = Ok s') :
  (bCanceled (promise s) = true -> bCanceled (promise s') = true) /\
  (Extras_IsComplete (promise s) = true ->
   Extras_IsComplete (promise s') = true) /\
  (ExitReason (promise s) <> Normal ->
   ExitReason (promise s') = ExitReason (promise s)).
Proof.
  change (lasting s s').
  revert s Hrun. induction ops as [|[gt op] ops IH]; intros s Hrun;
    simpl in Hrun.
  - injection Hrun as <-. apply lasting_refl.
  - apply bind_Ok in Hrun. destruct Hrun as (s1 & H1 & Hrun).
    apply (lasting_trans _ s1); [|apply (IH _ Hrun)].
    clear IH Hrun. destruct op; simpl in H1.
    + apply (Resume_lasting _ _ _ _ H1).
    + apply (ThreadSafeDestroy_lasting _ _ _ H1).
    + unfold AttachToGameThread in H1. inv_ok. lasting_tac.
    + inv_ok. lasting_tac.
    + inv_ok. lasting_tac.
    + unfold SetExitReason in H1. inv_ok. lasting_tac.
    + unfold SetCurrentAwaiter, Pending_SetCurrentAwaiter, deref_Pending
        in H1.
      inv_ok. eapply lasting_trans; [|apply lasting_logs]. lasting_tac.
    + inv_ok. lasting_tac.
    + unfold initial_suspend in H1. inv_ok; lasting_tac.
    + inv_ok. lasting_tac.
    + unfold UpdateOperation in H1. inv_ok; try lasting_tac.
      match goal with H : Resume _ _ _ = _ |- _ =>
        apply Resume_lasting in H; exact H end.
    + unfold NotifyActionAborted, SetExitReason in H1. inv_ok; lasting_tac.
    + unfold NotifyObjectDestroyed, SetExitReason in H1. inv_ok; lasting_tac.
    + unfold Pending_dtor in H1. inv_ok; try lasting_tac.
      match goal with H : Resume _ _ _ = _ |- _ =>
        apply Resume_lasting in H end.
      eapply lasting_trans; [|eassumption]. lasting_tac.
Qed.

End Monotone.

Lemma X5_witness :
  Pending_dtor true
    (Examples.sys_of
       (set_Pending (Some (set_Promise false Examples.bridge))
                    Examples.fresh) [AwaitAsync])
  = Ok (Examples.sys_of
          (set_Pending (Some (set_Promise false Examples.bridge))
                       Examples.fresh) [AwaitAsync]).
Proof.
  apply (X5_detached_bridge_is_inert
           (Examples.sys_of
              (set_Pending (Some (set_Promise false Examples.bridge))
                           Examples.fresh) [AwaitAsync])
           (set_Promise false Examples.bridge));
    reflexivity.
Defined.

Lemma X6_witness :
  exists s',
    Handle_destroy true Examples.unwinding = Ok s' /\
    Pending_dtor true s' = Ok s' /\
    trace s' = [EvLocalsDestroyed Normal; EvCompleted].
Proof.
  destruct (X6_destroyed_by_exception Examples.unwinding Examples.bridge
              eq_refl eq_refl eq_refl)
    as (s' & Hd & _ & Ht & _ & _ & Hp & _).
  exists s'. split; [exact Hd|]. split; [exact Hp|exact Ht].
Defined.

Lemma X8_witness :
  exists s1' s2',
    start true (Examples.sys_of Examples.fresh [AwaitAsync]) = Ok s1' /\
    start true (set_LAM (LAM s1') (Examples.sys_of Examples.fresh []))
    = Ok s2' /\
    Extras_IsComplete (promise s1') = false /\
    Extras_IsComplete (promise s2') = true /\
    resumptions (trace s2') = 0%nat.
Proof.
  destruct (X8_second_start None None 100 100
              [ArgObject Examples.actor; ArgLatentInfo Examples.info]
              [ArgObject Examples.actor; ArgLatentInfo Examples.info]
              (Examples.sys_of Examples.fresh [AwaitAsync])
              (Examples.sys_of Examples.fresh [])
              Examples.bridge Examples.bridge
              eq_refl eq_refl eq_refl eq_refl eq_refl eq_refl)
    as (s1' & Hs1 & _ & _ & Hx1 & Hdup & _).
  destruct (Hdup eq_refl eq_refl) as (s2' & Hs2 & _ & Hn2 & Hx2).
  exists s1', s2'. repeat (split; [assumption|]). exact Hn2.
Defined.

Lemma X9_witness :
  exists s0 s',
    start true (Examples.sys_of Examples.fresh
                  [AwaitLatent (Examples.ready 1);
                   AwaitLatent (Examples.ready 2)]) = Ok s0 /\
    requests [ReqTick; ReqTick] s0
    = Ok (s', [NoResponse; finished Examples.info]) /\
    LatentFlags (promise s') = LF_InFinalSuspend.
Proof.
  destruct (X9_runs_to_completion None 100
              [ArgObject Examples.actor; ArgLatentInfo Examples.info]
              (Examples.sys_of Examples.fresh
                 [AwaitLatent (Examples.ready 1);
                  AwaitLatent (Examples.ready 2)])
              Examples.bridge eq_refl eq_refl eq_refl eq_refl)
    as (_ & Hrun & _).
  destruct (Hrun (Examples.ready 1) [Examples.ready 2] eq_refl)
    as (s0 & s' & Hs & Ht & Hf & _).
  { repeat constructor. }
  exists s0, s'. split; [exact Hs|]. split; [exact Ht|exact Hf].
Defined.

Lemma X14_witness :
  exists s1 s',
    NotifyObjectDestroyed true (Examples.sys_of Examples.fresh [AwaitAsync])
    = Ok s1 /\
    Pending_dtor true s1 = Ok s' /\
    trace s' = [EvLocalsDestroyed ObjectDestroyed; EvCompleted] /\
    GLatentExitReason s' = Normal.
Proof.
  destruct (X14_exit_reason_reaches_the_frame
              (Examples.sys_of Examples.fresh [AwaitAsync]) Examples.bridge
              eq_refl eq_refl eq_refl eq_refl ObjectDestroyed)
    as (s1 & Hn & _ & Hatt & _).
  destruct (Hatt eq_refl) as (s' & Hd & Ht & Hg & _).
  exists s1, s'. split; [exact Hn|]. split; [exact Hd|].
  split; [exact Ht|exact Hg].
Defined.

Lemma X16_witness :
  exists s',
    exec_all [(false, OpResume false); (true, OpPendingDtor)]
             Examples.marked = Ok s' /\
    bCanceled (promise s') = true /\
    ExitReason (promise s') = ObjectDestroyed.
Proof.
  eexists. split; [vm_compute; reflexivity|].
  pose proof (@X16_nothing_is_taken_back flags_1_2
                [(false, OpResume false); (true, OpPendingDtor)]
                Examples.marked _ ltac:(vm_compute; reflexivity))
    as (Hc & _ & Hr).
  split; [exact (Hc eq_refl)|].
  apply Hr. discriminate.
Defined.

End LatentExtras.

(** ** More on the aggregate awaiters *)

Module AggregateExtras.
Import Aggregate.
Import AggregateProofs.

Section Construction.

(** The count and the index do not depend on the parent: whatever the
    events, they are given by the completions alone. *)
Lemma run_Count_Index (c0 : Z) (evs : list Ev) :
  Count (Data (run (init c0) evs))
  = c0 - Z.of_nat (length (completed evs)) /\
  Index (Data (run (init c0) evs))
  = match winner c0 (completed evs) with
    | Some i => Z.of_nat i
    | None => -1
    end.
Proof.
  induction evs as [|e evs [HC HI]] using rev_ind.
  - unfold winner. simpl. split; [lia|].
    destruct (c0 <=? 0); [|destruct (Z.to_nat c0 - 1)%nat]; reflexivity.
  - rewrite run_app, completed_app, length_app. simpl.
    set (st := run (init c0) evs) in *.
    destruct e as [i|h]; simpl.
    + rewrite winner_snoc. unfold Consume_finish. rewrite HC.
      replace (c0 =? Z.of_nat (length (completed evs)) + 1)
        with (c0 - Z.of_nat (length (completed evs)) - 1 =? 0)
        by (apply eq_true_iff_eq; rewrite !Z.eqb_eq; lia).
      destruct (c0 - Z.of_nat (length (completed evs)) - 1 =? 0) eqn:Hz;
        simpl.
      * destruct (Handle (Data st)); simpl; split; try reflexivity; lia.
      * split; [lia|exact HI].
    + rewrite app_nil_r, Nat.add_0_r.
      unfold co_await. destruct (await_ready (Data st)); simpl; auto.
Qed.

Lemma ready_children_length (i : nat) (Awaiters : list bool) :
  length (ready_children i Awaiters)
  = length (filter (fun a => a) Awaiters).
Proof.
  revert i. induction Awaiters as [|a Awaiters IH]; intros i; simpl.
  - reflexivity.
  - destruct a; simpl; rewrite IH; reflexivity.
Qed.

Lemma filter_ready_pending (Awaiters : list bool) :
  (length (filter (fun a => a) Awaiters)
   + length (filter negb Awaiters) = length Awaiters)%nat.
Proof.
  induction Awaiters as [|a Awaiters IH]; simpl; [reflexivity|].
  destruct a; simpl; lia.
Qed.

Lemma ready_children_hd (i : nat) (Awaiters : list bool) :
  match ready_children i Awaiters with
  | [] => forallb negb Awaiters = true
  | j :: _ =>
      (i <= j)%nat /\ nth_error Awaiters (j - i) = Some true /\
      forall k, (k < j - i)%nat -> nth_error Awaiters k = Some false
  end.
Proof.
  revert i. induction Awaiters as [|a Awaiters IH]; intros i; simpl.
  - reflexivity.
  - destruct a; simpl.
    + split; [lia|]. rewrite Nat.sub_diag. simpl.
      split; [reflexivity|]. intros k Hk. lia.
    + specialize (IH (S i)).
      destruct (ready_children (S i) Awaiters) as [|j rest]; [exact IH|].
      destruct IH as (Hle & Hj & Hbefore).
      split; [lia|].
      replace (j - i)%nat with (S (j - S i)) by lia. simpl.
      split; [exact Hj|].
      intros [|k] Hk; simpl; [reflexivity|]. apply Hbefore. lia.
Qed.

(** X10.  What the constructor of an aggregate awaiter leaves behind.  No
    handle is registered and nothing is resumed, however many children were
    ready on the spot.  For WhenAll the count is the number of children
    that are not ready yet.  For WhenAny with children the count is one
    minus the number of ready children, and the recorded index is the
    position of the first ready child, or -1 when none is ready. *)
Theorem X10_after_construction (Awaiters : list bool) :
  (forall Count0,
      Handle (Data (FAggregateAwaiter Count0 Awaiters)) = None /\
      Resumed (FAggregateAwaiter Count0 Awaiters) = [] /\
      Ready (FAggregateAwaiter Count0 Awaiters) = 0%nat) /\
  Count (Data (WhenAll Awaiters))
  = Z.of_nat (length (filter negb Awaiters)) /\
  (Awaiters <> [] ->
   Count (Data (WhenAny Awaiters))
   = 1 - Z.of_nat (length (filter (fun a => a) Awaiters)) /\
   match ready_children 0 Awaiters with
   | [] => Index (Data (WhenAny Awaiters)) = -1 /\
           forallb negb Awaiters = true
   | j :: _ =>
       Index (Data (WhenAny Awaiters)) = Z.of_nat j /\
       nth_error Awaiters j = Some true /\
       forall k, (k < j)%nat -> nth_error Awaiters k = Some false
   end).
Proof.
  assert (Hrun : forall c0,
            FAggregateAwaiter c0 Awaiters
            = run (init c0)
                  (map ChildCompletes (ready_children 0 Awaiters))).
  { intros c0. rewrite <- (app_nil_r (map _ _)).
    rewrite <- FAggregateAwaiter_run. reflexivity. }
  destruct (completed_children (ready_children 0 Awaiters)) as [Hc Ha].
  split; [|split].
  - intros c0. rewrite Hrun.
    destruct (run_Inv c0 (map ChildCompletes (ready_children 0 Awaiters)))
      as (_ & _ & HA).
    { rewrite Ha. simpl. lia. }
    rewrite Ha in HA. exact HA.
  - unfold WhenAll. rewrite Hrun.
    rewrite (proj1 (run_Count_Index _ _)), Hc, ready_children_length.
    unfold WhenAll_Count.
    pose proof (filter_ready_pending Awaiters). lia.
  - intros Hne.
    assert (Hc0 : WhenAny_Count Awaiters = 1)
      by (unfold WhenAny_Count; destruct Awaiters;
          [contradiction|reflexivity]).
    unfold WhenAny. rewrite Hrun, Hc0.
    destruct (run_Count_Index 1
                (map ChildCompletes (ready_children 0 Awaiters)))
      as [HC HI].
    rewrite HC, HI, Hc, ready_children_length.
    split; [reflexivity|].
    pose proof (ready_children_hd 0 Awaiters) as Hhd.
    destruct (ready_children 0 Awaiters) as [|j rest].
    + split; [reflexivity|exact Hhd].
    + rewrite Nat.sub_0_r in Hhd. destruct Hhd as (_ & Hj & Hbefore).
      split; [reflexivity|]. split; assumption.
Qed.

(** X11.  The index is recorded once.  Under any events, in any number and
    order, once a child has taken the count to zero and recorded its index,
    no later completion changes the index, and the count, going down by one
    with each completion, does not come back to zero. *)
Theorem X11_index_recorded_once
    (Count0 : Z) (Awaiters : list bool) (evs more : list Ev) (i : nat)
    (Hwon : Index (Data (run (FAggregateAwaiter Count0 Awaiters) evs))
            = Z.of_nat i) :
  Index (Data (run (FAggregateAwaiter Count0 Awaiters) (evs ++ more)))
  = Z.of_nat i /\
  Count (Data (run (FAggregateAwaiter Count0 Awaiters) evs)) <= 0 /\
  (completed more <> [] ->
   Count (Data (run (FAggregateAwaiter Count0 Awaiters) (evs ++ more))) < 0).
Proof.
  rewrite !FAggregateAwaiter_run in *.
  rewrite app_assoc.
  set (all := map ChildCompletes (ready_children 0 Awaiters) ++ evs) in *.
  destruct (run_Count_Index Count0 all) as [HC HI].
  destruct (run_Count_Index Count0 (all ++ more)) as [HC' HI'].
  rewrite HI in Hwon. rewrite HC, HC', HI'.
  rewrite completed_app, length_app.
  unfold winner in *.
  destruct (Count0 <=? 0) eqn:Hle; [lia|]. apply Z.leb_gt in Hle.
  destruct (nth_error (completed all) (Z.to_nat Count0 - 1)) as [j|] eqn:Hj;
    [|lia].
  assert (Hlt : (Z.to_nat Count0 - 1 < length (completed all))%nat).
  { apply nth_error_Some. rewrite Hj. discriminate. }
  rewrite nth_error_app1 by exact Hlt. rewrite Hj.
  split; [exact Hwon|]. split; [lia|].
  intros Hmore. destruct (completed more); [contradiction|]. simpl. lia.
Qed.

End Construction.

Lemma X11_witness :
  Index (Data (run (WhenAny Examples.sleepers)
                   [ParentAwaits 9; ChildCompletes 2])) = Z.of_nat 2 /\
  Index (Data (run (WhenAny Examples.sleepers) Examples.late)) = Z.of_nat 2.
Proof.
  split; [reflexivity|].
  apply (X11_index_recorded_once 1 Examples.sleepers
           [ParentAwaits 9; ChildCompletes 2] [ChildCompletes 0] 2).
  reflexivity.
Defined.

End AggregateExtras.

(** ** More on the ability promise *)

Module AbilityExtras.
Import Ability.

Section LatentInfos.




End LatentInfos.

End AbilityExtras.
